(** * Payment-confirmation polling of pharmgpt-mobile

    A shallow embedding of the two polling routines of the application,
    [pollPaymentStatus] (consultations screen) and [verifyPaymentStatus]
    (payment-success screen), together with the timer-driven runtime that
    re-enters them, and the properties of the poll that follow from the code.
    The screens around the poll are embedded as well: what the two payment
    screens show, the booking form, the root-cause list and the generators
    of the investigation screen, and the sending of chat messages. *)

From Stdlib Require Import String List ZArith Lia Bool Arith PeanoNat.
Import ListNotations.

Local Open Scope string_scope.
Local Open Scope list_scope.

(** ** Data *)

(** The four ways a poll can end. *)
Inductive Outcome : Type := Paid | Expired | TimedOut | Failed.

(** [response.data] of [GET /api/payments/status/{sessionId}]: the three
    fields the code reads.  A field that is absent (or not a string) is
    [None]. *)
Record StatusData : Type := mkStatusData {
  payment_status : option string;
  status : option string;
  consultation_request_id : option string
}.

(** What the [try] block of one invocation gets from its status query:
    either the awaited [axios.get] yields a response whose data is read, or
    an exception reaches the [catch] clause (the request is rejected on a
    network error or a non-2xx status, or the body is null and reading its
    field throws). *)
Inductive QueryResult : Type :=
| Response (data : StatusData)
| TransportError.

(** Observable effects of the two routines other than the status query and
    the timer: alerts, React state setters, the log, and the details request
    of the success screen. *)
Inductive Effect : Type :=
| Alert (title message : string)
| AlertWithOk (title message : string)
| SetShowPaymentStatus (b : bool)
| SetLoading (b : bool)
| SetPaymentStatus (s : string)
| GetConsultation (id : string)
| SetConsultationDetails (id : string)
| ConsoleError (message : string).

(** How one invocation of the async function ends: it returns through one of
    its terminal branches, or it leaves a [setTimeout] callback behind that
    calls the function again with the given [attempts] argument. *)
Inductive Completion : Type :=
| Return (o : Outcome) (fx : list Effect)
| SetTimeout (attempts : nat) (delay : Z) (fx : list Effect).

(** One invocation: either it completes without a status query (the guard on
    [attempts]), or it issues the query and continues with its result. *)
Inductive Invocation : Type :=
| NoQuery (c : Completion)
| AwaitStatus (k : QueryResult -> Completion).

(** ** The two routines *)

Definition maxAttempts : nat := 10.
Definition pollInterval : Z := 2000.

(** JavaScript [v === s] for a field [v] and a string literal [s]. *)
Definition strict_eq (v : option string) (s : string) : bool :=
  match v with
  | Some x => String.eqb x s
  | None => false
  end.

(** JavaScript truthiness of a field: present and not the empty string. *)
Definition truthy (v : option string) : option string :=
  match v with
  | Some "" => None
  | Some x => Some x
  | None => None
  end.

(** [pollPaymentStatus(sessionId, attempts = 0)] of the consultations screen. *)
Definition pollPaymentStatus (attempts : nat) : Invocation :=
  if (maxAttempts <=? attempts)%nat then
    NoQuery (Return TimedOut
      [Alert "Error" "Payment status check timed out. Please check your consultation history.";
       SetShowPaymentStatus false])
  else
    AwaitStatus (fun r =>
      match r with
      | Response data =>
          if strict_eq (payment_status data) "paid" then
            Return Paid
              [AlertWithOk "Payment Successful!"
                 "Your consultation has been booked successfully. You will receive a confirmation email shortly."]
          else if strict_eq (status data) "expired" then
            Return Expired
              [Alert "Payment Expired" "Your payment session has expired. Please try booking again.";
               SetShowPaymentStatus false]
          else
            SetTimeout (attempts + 1) pollInterval []
      | TransportError =>
          if (attempts <? 3)%nat then
            SetTimeout (attempts + 1) pollInterval
              [ConsoleError "Error checking payment status:"]
          else
            Return Failed
              [ConsoleError "Error checking payment status:";
               Alert "Error" "Unable to verify payment status. Please check your consultation history.";
               SetShowPaymentStatus false]
      end).

(** The nested [try]/[catch] of the success screen that loads the booked
    consultation; [details id] tells whether [GET /api/consultations/{id}]
    succeeds. *)
Definition loadDetails (details : string -> bool) (data : StatusData) : list Effect :=
  match truthy (consultation_request_id data) with
  | Some id =>
      if details id then [GetConsultation id; SetConsultationDetails id]
      else [GetConsultation id; ConsoleError "Failed to load consultation details:"]
  | None => []
  end.

(** [verifyPaymentStatus(sessionId, attempts = 0)] of the payment-success
    screen. *)
Definition verifyPaymentStatus (details : string -> bool) (attempts : nat) : Invocation :=
  if (maxAttempts <=? attempts)%nat then
    NoQuery (Return TimedOut
      [SetLoading false;
       Alert "Error" "Payment verification timeout. Please check your consultation history."])
  else
    AwaitStatus (fun r =>
      match r with
      | Response data =>
          if strict_eq (payment_status data) "paid" then
            Return Paid
              ([SetPaymentStatus "success"; SetLoading false] ++ loadDetails details data)
          else if strict_eq (status data) "expired" then
            Return Expired [SetPaymentStatus "expired"; SetLoading false]
          else
            SetTimeout (attempts + 1) pollInterval []
      | TransportError =>
          if (attempts <? 3)%nat then
            SetTimeout (attempts + 1) pollInterval
              [ConsoleError "Error verifying payment:"]
          else
            Return Failed
              [ConsoleError "Error verifying payment:";
               SetLoading false;
               SetPaymentStatus "error"]
      end).

(** ** The runtime that drives a routine *)

(** The state of one poll.  [timer] is the call that is scheduled next, with
    the [attempts] argument it will pass and the delay it waits first; the
    call made by the mounting effect is scheduled with delay 0.  The
    identifier that [setTimeout] returns is dropped by the code, so nothing
    but the firing of the timer ever removes it. *)
Record Runtime : Type := mkRuntime {
  timer : option (nat * Z);
  mounted : bool;
  queries : nat;
  clock : Z;
  resolved : list Outcome;
  effects : list Effect
}.

Definition start : Runtime :=
  {| timer := Some (0, 0%Z); mounted := true; queries := 0; clock := 0%Z;
     resolved := []; effects := [] |}.

(** Record how an invocation completed. *)
Definition complete (rt : Runtime) (c : Completion) : Runtime :=
  match c with
  | Return o fx =>
      {| timer := None; mounted := mounted rt; queries := queries rt;
         clock := clock rt; resolved := resolved rt ++ [o];
         effects := effects rt ++ fx |}
  | SetTimeout a d fx =>
      {| timer := Some (a, d); mounted := mounted rt; queries := queries rt;
         clock := clock rt; resolved := resolved rt;
         effects := effects rt ++ fx |}
  end.

(** The screen is dismissed.  The mounting effect of either screen
    ([useEffect(() => { ... }, ...)]) returns no cleanup function, so React
    has nothing to run: the scheduled call stays scheduled. *)
Definition unmount (rt : Runtime) : Runtime :=
  {| timer := timer rt; mounted := false; queries := queries rt;
     clock := clock rt; resolved := resolved rt; effects := effects rt |}.

Section Driver.

(** The routine being driven, and the answers of the status endpoint: the
    result of the k-th status query of this poll, counted from 0. *)
Variable body : nat -> Invocation.
Variable env : nat -> QueryResult.

(** The scheduled call runs, after its delay.  With no call scheduled
    nothing of the poll runs. *)
Definition fire (rt : Runtime) : Runtime :=
  match timer rt with
  | None => rt
  | Some (attempts, delay) =>
      let woken :=
        {| timer := None; mounted := mounted rt; queries := queries rt;
           clock := (clock rt + delay)%Z; resolved := resolved rt;
           effects := effects rt |} in
      match body attempts with
      | NoQuery c => complete woken c
      | AwaitStatus k =>
          complete
            {| timer := None; mounted := mounted woken;
               queries := S (queries woken); clock := clock woken;
               resolved := resolved woken; effects := effects woken |}
            (k (env (queries woken)))
      end
  end.

(** [n] timer firings from state [rt]. *)
Fixpoint run_from (rt : Runtime) (n : nat) : Runtime :=
  match n with
  | O => rt
  | S m => run_from (fire rt) m
  end.

Definition run (n : nat) : Runtime := run_from start n.

(** The whole poll: [maxAttempts + 1] firings are enough for every
    endpoint behaviour (see [poll_settles]). *)
Definition poll : Runtime := run (S maxAttempts).

End Driver.

(** ** Sample endpoint behaviours *)

Definition pending_data : StatusData :=
  {| payment_status := Some "pending"; status := Some "open";
     consultation_request_id := None |}.

Definition paid_data : StatusData :=
  {| payment_status := Some "paid"; status := Some "complete";
     consultation_request_id := Some "req-1" |}.

Definition expired_data : StatusData :=
  {| payment_status := Some "unpaid"; status := Some "expired";
     consultation_request_id := None |}.

Definition paid_and_expired_data : StatusData :=
  {| payment_status := Some "paid"; status := Some "expired";
     consultation_request_id := None |}.

(** The answers listed in [l], then [dflt] for ever. *)
Definition script (l : list QueryResult) (dflt : QueryResult) : nat -> QueryResult :=
  fun k => nth k l dflt.

Definition always (r : QueryResult) : nat -> QueryResult := fun _ => r.

Definition P : QueryResult := Response pending_data.
Definition F : QueryResult := TransportError.

(** Two failures, one pending response, two more failures. *)
Definition two_failures_pending_two_failures : nat -> QueryResult :=
  script [F; F; P; F; F] P.

(** Exactly three failures from the start, pending responses afterwards. *)
Definition three_failures_then_pending : nat -> QueryResult :=
  script [F; F; F] P.

(** Three pending responses, then the first failure. *)
Definition three_pending_then_failure : nat -> QueryResult :=
  script [P; P; P; F] P.

(** Ten pending responses, then a paid one. *)
Definition ten_pending_then_paid : nat -> QueryResult :=
  script (repeat P 10) (Response paid_data).

(** Two pending responses, then a paid one. *)
Definition paid_on_third : nat -> QueryResult :=
  script [P; P] (Response paid_data).

(** The two screens that poll, and the routine each one runs. *)
Inductive Poller : Type :=
| ConsultationsScreen
| SuccessScreen (details : string -> bool).

Definition routine (p : Poller) : nat -> Invocation :=
  match p with
  | ConsultationsScreen => pollPaymentStatus
  | SuccessScreen details => verifyPaymentStatus details
  end.

(** ** Reading a response *)

Definition is_paid (d : StatusData) : bool := strict_eq (payment_status d) "paid".
Definition is_expired (d : StatusData) : bool := strict_eq (status d) "expired".

(** A successful response that is neither paid nor expired. *)
Definition pending_response (r : QueryResult) : bool :=
  match r with
  | Response d => negb (is_paid d) && negb (is_expired d)
  | TransportError => false
  end.

(** A query result after which the poll goes on, when it is the result of
    the query with index [k] (counted from 0): a pending response, or a
    transport failure on one of the first three queries. *)
Definition nonterminal (k : nat) (r : QueryResult) : bool :=
  match r with
  | Response _ => pending_response r
  | TransportError => (k <? 3)%nat
  end.

(** ** The control skeleton shared by the two routines *)

(** A completion without its effects. *)
Inductive Decision : Type :=
| Stop (o : Outcome)
| Again (attempts : nat) (delay : Z).

Definition decision (c : Completion) : Decision :=
  match c with
  | Return o _ => Stop o
  | SetTimeout a d _ => Again a d
  end.

(** The outcome, if any, that the query result [r] produces when it answers
    the invocation called with [attempts]. *)
Definition verdict (attempts : nat) (r : QueryResult) : option Outcome :=
  match r with
  | Response d =>
      if is_paid d then Some Paid
      else if is_expired d then Some Expired
      else None
  | TransportError => if (attempts <? 3)%nat then None else Some Failed
  end.

Definition skeleton (attempts : nat) (r : QueryResult) : Decision :=
  match verdict attempts r with
  | Some o => Stop o
  | None => Again (attempts + 1) pollInterval
  end.

(** A routine follows the skeleton when it gives up without a query once
    [attempts] has reached [maxAttempts], and otherwise queries once and
    decides as [skeleton] does. *)
Definition follows_skeleton (body : nat -> Invocation) : Prop :=
  forall a,
    (maxAttempts <= a -> exists fx, body a = NoQuery (Return TimedOut fx)) /\
    (a < maxAttempts ->
       exists k, body a = AwaitStatus k /\ forall r, decision (k r) = skeleton a r).

(** The part of the runtime that the control flow touches. *)
Definition control (rt : Runtime) : option (nat * Z) * nat * Z * list Outcome :=
  (timer rt, queries rt, clock rt, resolved rt).

(** The delay of the call scheduled after [n] firings, and the time spent
    waiting once [n] calls have run. *)
Definition delay_of (n : nat) : Z :=
  match n with
  | O => 0%Z
  | S _ => pollInterval
  end.

Definition waited (n : nat) : Z := (Z.of_nat (Nat.pred n) * pollInterval)%Z.

(** The phases of a poll. *)
Inductive Phase : Type :=
| StillPolling
| TerminalSuccess
| TerminalExpired
| TerminalError.

Definition in_phase (ph : Phase) (rt : Runtime) : Prop :=
  match ph with
  | StillPolling => timer rt <> None /\ resolved rt = []
  | TerminalSuccess => timer rt = None /\ resolved rt = [Paid]
  | TerminalExpired => timer rt = None /\ resolved rt = [Expired]
  | TerminalError =>
      timer rt = None /\ (resolved rt = [TimedOut] \/ resolved rt = [Failed])
  end.

(** A poll whose screen is dismissed after [k] firings and then left for
    [n] more. *)
Definition run_dismissed (body : nat -> Invocation) (env : nat -> QueryResult)
    (k n : nat) : Runtime :=
  run_from body env (unmount (run body env k)) n.

(** No query of [env] with index below [n] produces an outcome. *)
Definition quiet (env : nat -> QueryResult) (n : nat) : Prop :=
  forall k, k < n -> verdict k (env k) = None.

(** The poll has settled once [n] calls have run, with outcome [o] after
    [q] queries. *)
Definition settled_at (body : nat -> Invocation) (env : nat -> QueryResult)
    (n q : nat) (o : Outcome) : Prop :=
  n <= S maxAttempts /\ q <= maxAttempts /\
  control (run body env n) = (None, q, waited n, [o]).

(** ** What the two screens show during and after a poll *)

(** The effects written to the console. *)
Definition is_log (e : Effect) : bool :=
  match e with
  | ConsoleError _ => true
  | _ => false
  end.

(** The effects that open an alert box. *)
Definition is_alert (e : Effect) : bool :=
  match e with
  | Alert _ _ | AlertWithOk _ _ => true
  | _ => false
  end.

Definition alerts (fx : list Effect) : list Effect := filter is_alert fx.

(** The effects of the branch through which a routine resolves outcome [o];
    [dta] is the response read by that branch, used by the paid branch of
    the success screen only. *)
Definition final_effects (p : Poller) (o : Outcome) (dta : StatusData) : list Effect :=
  match p, o with
  | ConsultationsScreen, Paid =>
      [AlertWithOk "Payment Successful!"
         "Your consultation has been booked successfully. You will receive a confirmation email shortly."]
  | ConsultationsScreen, Expired =>
      [Alert "Payment Expired" "Your payment session has expired. Please try booking again.";
       SetShowPaymentStatus false]
  | ConsultationsScreen, TimedOut =>
      [Alert "Error" "Payment status check timed out. Please check your consultation history.";
       SetShowPaymentStatus false]
  | ConsultationsScreen, Failed =>
      [ConsoleError "Error checking payment status:";
       Alert "Error" "Unable to verify payment status. Please check your consultation history.";
       SetShowPaymentStatus false]
  | SuccessScreen details, Paid =>
      [SetPaymentStatus "success"; SetLoading false] ++ loadDetails details dta
  | SuccessScreen _, Expired => [SetPaymentStatus "expired"; SetLoading false]
  | SuccessScreen _, TimedOut =>
      [SetLoading false;
       Alert "Error" "Payment verification timeout. Please check your consultation history."]
  | SuccessScreen _, Failed =>
      [ConsoleError "Error verifying payment:"; SetLoading false; SetPaymentStatus "error"]
  end.

(** The shape of the effects of a poll: console messages only while a call
    is scheduled, then the effects of the one branch that resolved. *)
Inductive effects_shape (p : Poller) (env : nat -> QueryResult) (rt : Runtime) : Prop :=
| shape_polling (a : nat) (d : Z) :
    timer rt = Some (a, d) -> resolved rt = [] ->
    forallb is_log (effects rt) = true ->
    effects_shape p env rt
| shape_done (o : Outcome) (dta : StatusData) (logs : list Effect) :
    timer rt = None -> resolved rt = [o] ->
    forallb is_log logs = true ->
    effects rt = logs ++ final_effects p o dta ->
    (o = Paid -> env (Nat.pred (queries rt)) = Response dta /\ is_paid dta = true) ->
    effects_shape p env rt.

(** A runtime in which no call is scheduled. *)
Definition idle (fx : list Effect) : Runtime :=
  {| timer := None; mounted := true; queries := 0; clock := 0%Z;
     resolved := []; effects := fx |}.

(** *** The consultations screen *)

Inductive Tab : Type := Browse | Book | History.

(** The React state of the consultations screen that the poll touches. *)
Record ConsultationsUi : Type := mkConsultationsUi {
  showPaymentStatus : bool;
  paymentSessionId : string;
  activeTab : Tab
}.

Definition consultations_initial : ConsultationsUi :=
  {| showPaymentStatus := false; paymentSessionId := ""; activeTab := Browse |}.

(** [checkPaymentReturn()]: [session_id] is what
    [urlParams.get('session_id')] returns, [None] for [null].  With a
    truthy identifier the modal is shown and the first call of
    [pollPaymentStatus] is made; otherwise nothing happens. *)
Definition checkPaymentReturn (session_id : option string) (ui : ConsultationsUi)
    : ConsultationsUi * Runtime :=
  match truthy session_id with
  | Some sessionId =>
      ({| showPaymentStatus := true; paymentSessionId := sessionId;
          activeTab := activeTab ui |}, start)
  | None => (ui, idle [])
  end.

(** The state setters among the effects of [pollPaymentStatus]. *)
Definition consultations_effect (ui : ConsultationsUi) (e : Effect) : ConsultationsUi :=
  match e with
  | SetShowPaymentStatus b =>
      {| showPaymentStatus := b; paymentSessionId := paymentSessionId ui;
         activeTab := activeTab ui |}
  | _ => ui
  end.

Definition consultations_ui (ui : ConsultationsUi) (fx : list Effect) : ConsultationsUi :=
  fold_left consultations_effect fx ui.

(** The [onPress] handler of the OK button of the success alert (it also
    reloads the history). *)
Definition pressOk (ui : ConsultationsUi) : ConsultationsUi :=
  {| showPaymentStatus := false; paymentSessionId := paymentSessionId ui;
     activeTab := History |}.

(** The screen after [n] firings of a poll begun by [checkPaymentReturn]. *)
Definition consultations_after (session_id : option string) (env : nat -> QueryResult)
    (n : nat) : ConsultationsUi * Runtime :=
  let '(ui, rt) := checkPaymentReturn session_id consultations_initial in
  let rt' := run_from pollPaymentStatus env rt n in
  (consultations_ui ui (effects rt'), rt').

(** *** The payment-success screen *)

(** The [session_id] search parameter as [useLocalSearchParams] gives it:
    absent, given once, or given several times. *)
Inductive SearchParam : Type :=
| NoParam
| OneParam (s : string)
| ManyParams (l : list string).

(** JavaScript truthiness of the parameter (an array is always truthy). *)
Definition param_truthy (p : SearchParam) : bool :=
  match p with
  | NoParam => false
  | OneParam s => negb (String.eqb s "")
  | ManyParams _ => true
  end.

(** The mounting effect of the success screen: poll when there is a session
    identifier, otherwise stop loading and alert. *)
Definition mountConsultationSuccess (session_id : SearchParam) : Runtime :=
  if param_truthy session_id then start
  else idle [SetLoading false; Alert "Error" "No payment session found"].

(** The React state of the success screen. *)
Record SuccessUi : Type := mkSuccessUi {
  loading : bool;
  paymentStatus : string;
  consultationDetails : option string
}.

Definition success_initial : SuccessUi :=
  {| loading := true; paymentStatus := ""; consultationDetails := None |}.

Definition success_effect (ui : SuccessUi) (e : Effect) : SuccessUi :=
  match e with
  | SetLoading b =>
      {| loading := b; paymentStatus := paymentStatus ui;
         consultationDetails := consultationDetails ui |}
  | SetPaymentStatus s =>
      {| loading := loading ui; paymentStatus := s;
         consultationDetails := consultationDetails ui |}
  | SetConsultationDetails id =>
      {| loading := loading ui; paymentStatus := paymentStatus ui;
         consultationDetails := Some id |}
  | _ => ui
  end.

Definition success_ui (fx : list Effect) : SuccessUi :=
  fold_left success_effect fx success_initial.

(** What the success screen renders. *)
Inductive View : Type :=
| LoadingView
| SuccessView (details : option string)
| ErrorView (subtitle : string).

(** The [return] of [ConsultationSuccess], with the subtitle chosen by
    [renderError] and the details block of [renderSuccess]. *)
Definition renderConsultationSuccess (ui : SuccessUi) : View :=
  if loading ui then LoadingView
  else if String.eqb (paymentStatus ui) "success" then
    SuccessView (consultationDetails ui)
  else
    ErrorView (if String.eqb (paymentStatus ui) "expired"
               then "Your payment session has expired"
               else "There was an issue processing your payment").

(** The success screen after [n] firings of the poll begun at mount. *)
Definition success_after (details : string -> bool) (session_id : SearchParam)
    (env : nat -> QueryResult) (n : nat) : Runtime :=
  run_from (verifyPaymentStatus details) env (mountConsultationSuccess session_id) n.

(** The details that the paid branch ends up showing for response [dta]. *)
Definition shown_details (details : string -> bool) (dta : StatusData) : option string :=
  match truthy (consultation_request_id dta) with
  | Some id => if details id then Some id else None
  | None => None
  end.

(** ** The root-cause list of the investigation screen *)

(** An element of a JavaScript array of strings: a hole (no element at the
    index), the value [undefined], or a string. *)
Inductive Cell : Type :=
| Hole
| Undefined
| Str (s : string).

Definition is_hole (c : Cell) : bool :=
  match c with
  | Hole => true
  | _ => false
  end.

Definition is_str (c : Cell) : bool :=
  match c with
  | Str _ => true
  | _ => false
  end.

(** [useState<string[]>([''])]. *)
Definition rootCauses_initial : list Cell := [Str ""].

(** [[...array]]: the copy has [undefined] where the array has a hole. *)
Definition spread (l : list Cell) : list Cell :=
  map (fun c => match c with Hole => Undefined | _ => c end) l.

(** [array[index] = value]: replaces the element when [index] is in range,
    appends when [index] is the length, and leaves holes in between when
    [index] is beyond it. *)
Fixpoint assign (l : list Cell) (index : nat) (value : string) : list Cell :=
  match l, index with
  | [], O => [Str value]
  | [], S i => Hole :: assign [] i value
  | _ :: t, O => Str value :: t
  | c :: t, S i => c :: assign t i value
  end.

(** [array.filter((c, i) => f(c, i))], the first element having index
    [i]: holes are skipped without calling [f]. *)
Fixpoint array_filter (f : Cell -> nat -> bool) (i : nat) (l : list Cell) : list Cell :=
  match l with
  | [] => []
  | Hole :: t => array_filter f (S i) t
  | c :: t => if f c i then c :: array_filter f (S i) t else array_filter f (S i) t
  end.

(** [addRootCause()]: [setRootCauses([...rootCauses, ''])]. *)
Definition addRootCause (rootCauses : list Cell) : list Cell :=
  spread rootCauses ++ [Str ""].

(** [updateRootCause(index, value)]. *)
Definition updateRootCause (rootCauses : list Cell) (index : nat) (value : string)
    : list Cell :=
  assign (spread rootCauses) index value.

(** [removeRootCause(index)]. *)
Definition removeRootCause (rootCauses : list Cell) (index : nat) : list Cell :=
  if (1 <? length rootCauses)%nat then
    array_filter (fun _ i => negb (i =? index)%nat) 0 rootCauses
  else rootCauses.

(** What the user can do to the list. *)
Inductive RootCauseAction : Type :=
| AddRootCause
| UpdateRootCause (index : nat) (value : string)
| RemoveRootCause (index : nat).

Definition root_cause_step (rootCauses : list Cell) (a : RootCauseAction) : list Cell :=
  match a with
  | AddRootCause => addRootCause rootCauses
  | UpdateRootCause index value => updateRootCause rootCauses index value
  | RemoveRootCause index => removeRootCause rootCauses index
  end.

(** The index of an action names a row that is on the screen, as it does
    when the action comes from the row's own input or button. *)
Definition on_screen (rootCauses : list Cell) (a : RootCauseAction) : bool :=
  match a with
  | AddRootCause => true
  | UpdateRootCause index _ | RemoveRootCause index => (index <? length rootCauses)%nat
  end.

(** All actions of [acts], applied in turn from [rootCauses], name rows that
    are on the screen when they are applied. *)
Fixpoint all_on_screen (rootCauses : list Cell) (acts : list RootCauseAction) : bool :=
  match acts with
  | [] => true
  | a :: rest =>
      on_screen rootCauses a && all_on_screen (root_cause_step rootCauses a) rest
  end.

(** The number of elements that are not holes. *)
Definition elements (l : list Cell) : nat :=
  length (filter (fun c => negb (is_hole c)) l).

(** The strings of a list of cells. *)
Definition strings (l : list string) : list Cell := map Str l.

(** ** The requests of the investigation screen *)

(** The items of AsyncStorage under their keys. *)
Definition Items : Type := string -> option string.

Definition no_items : Items := fun _ => None.

Definition put_item (items : Items) (key value : string) : Items :=
  fun k => if String.eqb k key then Some value else items k.

(** What a call meets on the device: the text of [Date.now()], the text of
    the random suffix, and whether the promises of [AsyncStorage.getItem]
    and [AsyncStorage.setItem] are fulfilled. *)
Record Device : Type := mkDevice {
  now : string;
  random : string;
  get_ok : bool;
  set_ok : bool
}.

(** [getUserId()]: the stored identifier; when there is none, a new one that
    is stored first; ['default_user'] when the storage throws. *)
Definition getUserId (dev : Device) (items : Items) : string * Items :=
  if get_ok dev then
    match truthy (items "pharma_user_id") with
    | Some userId => (userId, items)
    | None =>
        let userId := ("user_" ++ now dev ++ "_" ++ random dev)%string in
        if set_ok dev then (userId, put_item items "pharma_user_id" userId)
        else ("default_user", items)
    end
  else ("default_user", items).

Inductive Analysis : Type := FiveWhy | Fishbone | Capa.

(** The outcome of an [axios.post]: fulfilled with [response.data], or
    rejected. *)
Inductive PostResult : Type :=
| Posted (data : string)
| PostRejected.

(** The effects of the three generators. *)
Inductive InvEffect : Type :=
| InvAlert (title message : string)
| InvSetLoading (b : bool)
| InvPost (endpoint problem_statement : string) (root_causes : option (list string))
          (user_id regulatory_context : string)
| InvSetResults (a : Analysis) (data : string)
| InvSetShowResults (b : bool)
| InvConsoleError (message : string).

(** The React state of the investigation screen that the generators read. *)
Record InvestigationState : Type := mkInvestigationState {
  activeAnalysis : Analysis;
  problemStatement : string;
  selectedRegulatory : string;
  rootCauses : list Cell
}.

Section InvestigationRequests.

(** [String.prototype.trim]. *)
Variable trim : string -> string.

(** [!s.trim()]. *)
Definition blank (s : string) : bool := String.eqb (trim s) "".

(** [generate5WhyAnalysis()]. *)
Definition generate5WhyAnalysis (dev : Device) (post : PostResult)
    (st : InvestigationState) (items : Items) : list InvEffect * Items :=
  if blank (problemStatement st) then
    ([InvAlert "Error" "Please enter a problem statement"], items)
  else
    let '(userId, items') := getUserId dev items in
    let request :=
      InvPost "/api/investigation/five-why" (problemStatement st) None userId
        (selectedRegulatory st) in
    ([InvSetLoading true; request] ++
     match post with
     | Posted data => [InvSetResults FiveWhy data; InvSetShowResults true]
     | PostRejected =>
         [InvConsoleError "5-Why analysis error:";
          InvAlert "Error" "Failed to generate 5-Why analysis. Please try again."]
     end ++ [InvSetLoading false], items').

(** [generateFishboneAnalysis()]. *)
Definition generateFishboneAnalysis (dev : Device) (post : PostResult)
    (st : InvestigationState) (items : Items) : list InvEffect * Items :=
  if blank (problemStatement st) then
    ([InvAlert "Error" "Please enter a problem statement"], items)
  else
    let '(userId, items') := getUserId dev items in
    let request :=
      InvPost "/api/investigation/fishbone" (problemStatement st) None userId
        (selectedRegulatory st) in
    ([InvSetLoading true; request] ++
     match post with
     | Posted data => [InvSetResults Fishbone data; InvSetShowResults true]
     | PostRejected =>
         [InvConsoleError "Fishbone analysis error:";
          InvAlert "Error" "Failed to generate Fishbone analysis. Please try again."]
     end ++ [InvSetLoading false], items').

(** [rootCauses.filter(cause => cause.trim())]: the strings that are not
    blank; [None] when the callback throws on an [undefined] element. *)
Fixpoint validRootCauses (l : list Cell) : option (list string) :=
  match l with
  | [] => Some []
  | Hole :: t => validRootCauses t
  | Undefined :: _ => None
  | Str s :: t =>
      if blank s then
        validRootCauses t
      else
        match validRootCauses t with
        | Some r => Some (s :: r)
        | None => None
        end
  end.

(** [generateCAPAAnalysis()]; [None] when the filter of the root causes
    throws, which nothing in the function catches. *)
Definition generateCAPAAnalysis (dev : Device) (post : PostResult)
    (st : InvestigationState) (items : Items) : option (list InvEffect * Items) :=
  if blank (problemStatement st) then
    Some ([InvAlert "Error" "Please enter a problem statement"], items)
  else
    match validRootCauses (rootCauses st) with
    | None => None
    | Some [] => Some ([InvAlert "Error" "Please enter at least one root cause"], items)
    | Some causes =>
        let '(userId, items') := getUserId dev items in
        let request :=
          InvPost "/api/investigation/capa" (problemStatement st) (Some causes) userId
            (selectedRegulatory st) in
        Some ([InvSetLoading true; request] ++
              match post with
              | Posted data => [InvSetResults Capa data; InvSetShowResults true]
              | PostRejected =>
                  [InvConsoleError "CAPA analysis error:";
                   InvAlert "Error" "Failed to generate CAPA analysis. Please try again."]
              end ++ [InvSetLoading false], items')
    end.

(** The [onPress] of the generate button: the generator of the active tab. *)
Definition pressGenerate (dev : Device) (post : PostResult)
    (st : InvestigationState) (items : Items) : option (list InvEffect * Items) :=
  match activeAnalysis st with
  | FiveWhy => Some (generate5WhyAnalysis dev post st items)
  | Fishbone => Some (generateFishboneAnalysis dev post st items)
  | Capa => generateCAPAAnalysis dev post st items
  end.

End InvestigationRequests.

(** The requests among the effects. *)
Definition is_post (e : InvEffect) : bool :=
  match e with
  | InvPost _ _ _ _ _ => true
  | _ => false
  end.

(** The value of the [loading] flag after the effects, from [b]. *)
Definition loading_after (b : bool) (fx : list InvEffect) : bool :=
  fold_left (fun cur e => match e with InvSetLoading v => v | _ => cur end) fx b.

(** A [trim] for plain spaces, to run the generators on examples. *)
Fixpoint drop_spaces (s : string) : string :=
  match s with
  | String (Ascii.Ascii false false false false false true false false) rest =>
      drop_spaces rest
  | _ => s
  end.

Fixpoint string_rev (s acc : string) : string :=
  match s with
  | EmptyString => acc
  | String c rest => string_rev rest (String c acc)
  end.

Definition trim_spaces (s : string) : string :=
  string_rev (drop_spaces (string_rev (drop_spaces s) "")) "".

(** An investigation to run the generators on. *)
Definition sample_device : Device := mkDevice "1700000000000" "k3j9x1abc" true true.

Definition sample_capa : InvestigationState :=
  {| activeAnalysis := Capa; problemStatement := "Tablets chipped at compression";
     selectedRegulatory := "GMP";
     rootCauses := strings ["  "; "worn punch"; ""; "low moisture"] |}.

(** ** Sending a message on the chat screen *)

Inductive Sender : Type := FromUser | FromAssistant.

(** A [ChatMessage]; [msg_id] is the number whose decimal text is the
    [id]. *)
Record ChatMessage : Type := mkChatMessage {
  msg_id : Z;
  msg_message : string;
  msg_sender : Sender;
  msg_timestamp : string;
  msg_regulatory_context : string;
  msg_process_type : option string
}.

(** The React state of the chat screen that [sendMessage] reads or sets. *)
Record ChatState : Type := mkChatState {
  messages : list ChatMessage;
  inputText : string;
  chat_loading : bool;
  chat_sessionId : string;
  chat_selectedRegulatory : string;
  selectedProcess : option string;
  showProofreadingPrompts : bool;
  suggestions : list string
}.

(** [Date.now()] and [new Date().toISOString()] at one moment. *)
Record Moment : Type := mkMoment {
  millis : Z;
  iso : string
}.

(** The outcome of the [axios.post] to [/api/chat]: the [response] and
    [suggestions] fields of the data, or an exception in the [try] block. *)
Inductive ChatReply : Type :=
| Replied (response : string) (reply_suggestions : option (list string))
| ReplyRejected.

Inductive ChatEffect : Type :=
| KeyboardDismiss
| ChatPost (message session_id regulatory_context : string) (process_type : option string)
| ScrollToEndAfter (delay : Z)
| ChatConsoleError (message : string)
| ChatAlert (title message : string).

Section ChatScreen.

Variable trim : string -> string.

(** [messageText || inputText.trim()]. *)
Definition textToSend (messageText : option string) (st : ChatState) : string :=
  match truthy messageText with
  | Some text => text
  | None => trim (inputText st)
  end.

(** [sendMessage(messageText)] up to its [await]: [None] when it returns at
    the guard; otherwise the state with the user's message appended and the
    request that is sent. *)
Definition sendMessage_begin (at_send : Moment) (messageText : option string)
    (st : ChatState) : option (ChatState * list ChatEffect) :=
  let text := textToSend messageText st in
  if String.eqb text "" || chat_loading st then None
  else
    let userMessage :=
      {| msg_id := millis at_send; msg_message := text; msg_sender := FromUser;
         msg_timestamp := iso at_send;
         msg_regulatory_context := chat_selectedRegulatory st;
         msg_process_type := truthy (selectedProcess st) |} in
    Some ({| messages := messages st ++ [userMessage]; inputText := "";
             chat_loading := true; chat_sessionId := chat_sessionId st;
             chat_selectedRegulatory := chat_selectedRegulatory st;
             selectedProcess := selectedProcess st;
             showProofreadingPrompts := false; suggestions := suggestions st |},
          [KeyboardDismiss;
           ChatPost text (chat_sessionId st) (chat_selectedRegulatory st)
             (selectedProcess st)]).

(** [sendMessage] from the end of its [await]: [called] is the state the
    call was made in, whose settings the function still holds; [st] is the
    state at the time the reply arrives, which the setters update. *)
Definition sendMessage_end (at_reply : Moment) (reply : ChatReply)
    (called st : ChatState) : ChatState * list ChatEffect :=
  match reply with
  | Replied response reply_suggestions =>
      let aiMessage :=
        {| msg_id := (millis at_reply + 1)%Z; msg_message := response;
           msg_sender := FromAssistant; msg_timestamp := iso at_reply;
           msg_regulatory_context := chat_selectedRegulatory called;
           msg_process_type := truthy (selectedProcess called) |} in
      ({| messages := messages st ++ [aiMessage]; inputText := inputText st;
          chat_loading := false; chat_sessionId := chat_sessionId st;
          chat_selectedRegulatory := chat_selectedRegulatory st;
          selectedProcess := selectedProcess st;
          showProofreadingPrompts := showProofreadingPrompts st;
          suggestions := match reply_suggestions with
                         | Some l => l
                         | None => []
                         end |},
       [ScrollToEndAfter 100])
  | ReplyRejected =>
      ({| messages := messages st; inputText := inputText st;
          chat_loading := false; chat_sessionId := chat_sessionId st;
          chat_selectedRegulatory := chat_selectedRegulatory st;
          selectedProcess := selectedProcess st;
          showProofreadingPrompts := showProofreadingPrompts st;
          suggestions := suggestions st |},
       [ChatConsoleError "Failed to send message:";
        ChatAlert "Error" "Failed to get AI response. Please try again."])
  end.

(** A whole call of [sendMessage] during which nothing else touches the
    state. *)
Definition sendMessage (at_send at_reply : Moment) (reply : ChatReply)
    (messageText : option string) (st : ChatState) : ChatState * list ChatEffect :=
  match sendMessage_begin at_send messageText st with
  | None => (st, [])
  | Some (st1, fx1) =>
      let '(st2, fx2) := sendMessage_end at_reply reply st st1 in
      (st2, fx1 ++ fx2)
  end.

End ChatScreen.



Definition is_chat_post (e : ChatEffect) : bool :=
  match e with
  | ChatPost _ _ _ _ => true
  | _ => false
  end.

(** The chat screen as it starts, with a session. *)
Definition sample_chat : ChatState :=
  {| messages := []; inputText := "  How do I validate a cleaning process? ";
     chat_loading := false; chat_sessionId := "session_1700000000000_k3j9x1abc";
     chat_selectedRegulatory := "GMP"; selectedProcess := None;
     showProofreadingPrompts := false; suggestions := [] |}.

(** ** The session of the chat screen *)





(** ** Booking a consultation *)

(** The booking form, field by field. *)
Record BookingForm : Type := mkBookingForm {
  title : string;
  description : string;
  preferred_date : string;
  preferred_time : string;
  urgency_level : string;
  regulatory_context : string;
  company_name : string;
  contact_email : string;
  phone_number : string
}.

(** [useState] of the form. *)
Definition bookingForm_initial : BookingForm :=
  {| title := ""; description := ""; preferred_date := ""; preferred_time := "";
     urgency_level := "normal"; regulatory_context := "GMP"; company_name := "";
     contact_email := ""; phone_number := "" |}.

(** The state that [handleBookConsultation] reads: the selected consultant
    (by its [id]; [None] for [null]), the selected package and the form. *)
Record BookingState : Type := mkBookingState {
  selectedConsultant : option string;
  selectedPackage : string;
  bookingForm : BookingForm
}.

(** The outcome of the [axios.post] to [/api/consultations/book]: the
    [checkout_url] of the data, or an exception in the [try] block. *)
Inductive BookingReply : Type :=
| Booked (checkout_url : option string)
| BookingRejected.

Inductive BookingEffect : Type :=
| BookAlert (title message : string)
| BookSetLoading (b : bool)
| BookPost (consultant_id package_id : string) (form : BookingForm)
| BookOpenURL (url : string)
| BookSetShowBookingModal (b : bool)
| BookConsoleError (message : string).

(** [!s] for a string. *)
Definition empty (s : string) : bool := String.eqb s "".

(** [handleBookConsultation()]. *)
Definition handleBookConsultation (reply : BookingReply) (st : BookingState)
    : list BookingEffect :=
  match selectedConsultant st with
  | None => [BookAlert "Error" "Please select a consultant and package."]
  | Some consultant_id =>
      if empty (selectedPackage st) then
        [BookAlert "Error" "Please select a consultant and package."]
      else if empty (title (bookingForm st)) || empty (description (bookingForm st))
              || empty (contact_email (bookingForm st))
              || empty (preferred_date (bookingForm st))
              || empty (preferred_time (bookingForm st)) then
        [BookAlert "Error" "Please fill in all required fields."]
      else
        [BookSetLoading true;
         BookPost consultant_id (selectedPackage st) (bookingForm st)] ++
        match reply with
        | Booked checkout_url =>
            match truthy checkout_url with
            | Some url => [BookOpenURL url; BookSetShowBookingModal false]
            | None => [BookAlert "Error" "Failed to create payment session."]
            end
        | BookingRejected =>
            [BookConsoleError "Booking error:";
             BookAlert "Error" "Failed to book consultation. Please try again."]
        end ++ [BookSetLoading false]
  end.

Definition is_book_post (e : BookingEffect) : bool :=
  match e with
  | BookPost _ _ _ => true
  | _ => false
  end.

Definition is_book_alert (e : BookingEffect) : bool :=
  match e with
  | BookAlert _ _ => true
  | _ => false
  end.

Definition is_open_url (e : BookingEffect) : bool :=
  match e with
  | BookOpenURL _ => true
  | _ => false
  end.

(** A booking that is ready to be sent. *)
Definition sample_booking : BookingState :=
  {| selectedConsultant := Some "c-17"; selectedPackage := "standard";
     bookingForm :=
       {| title := "Cleaning validation"; description := "Review of our protocol";
          preferred_date := "2025-03-01"; preferred_time := "10:00";
          urgency_level := "normal"; regulatory_context := "GMP"; company_name := "";
          contact_email := "qa@example.org"; phone_number := "" |} |}.

(** The checks that [handleBookConsultation] makes before it sends. *)
Definition booking_ready (st : BookingState) : bool :=
  match selectedConsultant st with
  | Some _ =>
      negb (empty (selectedPackage st))
      && negb (empty (title (bookingForm st)))
      && negb (empty (description (bookingForm st)))
      && negb (empty (contact_email (bookingForm st)))
      && negb (empty (preferred_date (bookingForm st)))
      && negb (empty (preferred_time (bookingForm st)))
  | None => false
  end.

(** ** The expertise chips of a consultant card *)

Inductive Chip : Type :=
| AreaChip (area : string)
| MoreChip (hidden : nat).

(** [renderExpertiseChips(areas)]: a chip for each of the first three areas
    and, when there are more, one chip that counts the rest. *)
Definition renderExpertiseChips (areas : list string) : list Chip :=
  map AreaChip (firstn 3 areas) ++
  (if (3 <? length areas)%nat then [MoreChip (length areas - 3)] else []).

(** ** The history of the consultations screen *)

Inductive HistoryEffect : Type :=
| HistoryGet (userId : string)
| SetConsultationHistory (data : string)
| HistoryConsoleError (message : string).

(** [loadConsultationHistory()]: [got] tells whether the promise of
    [AsyncStorage.getItem] is fulfilled, [reply] how the request ends. *)
Definition loadConsultationHistory (got : bool) (reply : PostResult) (items : Items)
    : list HistoryEffect :=
  if got then
    match truthy (items "pharma_user_id") with
    | Some userId =>
        HistoryGet userId ::
        match reply with
        | Posted data => [SetConsultationHistory data]
        | PostRejected => [HistoryConsoleError "Failed to load consultation history:"]
        end
    | None => []
    end
  else [HistoryConsoleError "Failed to load consultation history:"].

(** * Properties *)

(** Arithmetic that needs the value of [maxAttempts]. *)
Ltac budget := unfold maxAttempts in *; lia.

(** Case analysis on the condition of the first conditional of the goal. *)
Ltac case_if :=
  match goal with
  | |- context [if ?b then _ else _] => destruct b
  end.

(** ** Both routines follow the skeleton *)

Lemma pollPaymentStatus_skeleton : follows_skeleton pollPaymentStatus.
Proof.
  intro a; split; intro H; unfold pollPaymentStatus.
  - apply Nat.leb_le in H; rewrite H; eauto.
  - apply Nat.leb_gt in H; rewrite H.
    eexists; split; [reflexivity|].
    intros [d|]; unfold skeleton, verdict, is_paid, is_expired; cbn;
      repeat case_if; reflexivity.
Qed.

Lemma verifyPaymentStatus_skeleton details :
  follows_skeleton (verifyPaymentStatus details).
Proof.
  intro a; split; intro H; unfold verifyPaymentStatus.
  - apply Nat.leb_le in H; rewrite H; eauto.
  - apply Nat.leb_gt in H; rewrite H.
    eexists; split; [reflexivity|].
    intros [d|]; unfold skeleton, verdict, is_paid, is_expired; cbn;
      repeat case_if; reflexivity.
Qed.

Lemma routine_skeleton p : follows_skeleton (routine p).
Proof.
  destruct p; [apply pollPaymentStatus_skeleton | apply verifyPaymentStatus_skeleton].
Qed.

Lemma nonterminal_verdict k r : nonterminal k r = true -> verdict k r = None.
Proof.
  destruct r as [d|]; cbn.
  - destruct (is_paid d); [discriminate|].
    destruct (is_expired d); [discriminate|reflexivity].
  - intros ->; reflexivity.
Qed.

Lemma complete_control rt c :
  control (complete rt c) =
  match decision c with
  | Stop o => (None, queries rt, clock rt, resolved rt ++ [o])
  | Again a d => (Some (a, d), queries rt, clock rt, resolved rt)
  end.
Proof. destruct c; reflexivity. Qed.

(** ** The trajectory of a poll *)

Section Trajectory.

Variable body : nat -> Invocation.
Variable env : nat -> QueryResult.
Hypothesis Hbody : follows_skeleton body.

Lemma fire_idle rt : timer rt = None -> fire body env rt = rt.
Proof. unfold fire; intros ->; reflexivity. Qed.

Lemma run_from_idle rt n : timer rt = None -> run_from body env rt n = rt.
Proof.
  intro H; induction n as [|n IH]; cbn; [reflexivity|].
  rewrite fire_idle by assumption; exact IH.
Qed.

Lemma run_from_add rt n m :
  run_from body env rt (n + m) = run_from body env (run_from body env rt n) m.
Proof. revert rt; induction n as [|n IH]; intro rt; cbn; [reflexivity|apply IH]. Qed.

Lemma run_add n m : run body env (n + m) = run_from body env (run body env n) m.
Proof. apply run_from_add. Qed.

Lemma run_S n : run body env (S n) = fire body env (run body env n).
Proof. replace (S n) with (n + 1) by lia; rewrite run_add; reflexivity. Qed.

Lemma run_settled n m :
  timer (run body env n) = None -> run body env (n + m) = run body env n.
Proof. intro H; rewrite run_add; apply run_from_idle; exact H. Qed.

(** One firing of a call that queries. *)
Lemma fire_query rt a d :
  timer rt = Some (a, d) -> a < maxAttempts ->
  control (fire body env rt) =
  match verdict a (env (queries rt)) with
  | Some o => (None, S (queries rt), (clock rt + d)%Z, resolved rt ++ [o])
  | None =>
      (Some (a + 1, pollInterval), S (queries rt), (clock rt + d)%Z, resolved rt)
  end.
Proof.
  intros Ht Ha; unfold fire; rewrite Ht.
  destruct (proj2 (Hbody a) Ha) as [k [-> Hk]].
  rewrite complete_control, Hk; unfold skeleton; cbn.
  destruct (verdict a (env (queries rt))); reflexivity.
Qed.

(** One firing of a call that finds the attempts used up. *)
Lemma fire_exhausted rt a d :
  timer rt = Some (a, d) -> maxAttempts <= a ->
  control (fire body env rt) =
  (None, queries rt, (clock rt + d)%Z, resolved rt ++ [TimedOut]).
Proof.
  intros Ht Ha; unfold fire; rewrite Ht.
  destruct (proj1 (Hbody a) Ha) as [fx ->]; reflexivity.
Qed.

Lemma waited_step n : (waited n + delay_of n)%Z = waited (S n).
Proof.
  unfold waited, delay_of; destruct n as [|n]; [reflexivity|].
  cbn [Nat.pred]; lia.
Qed.

(** While no outcome is produced, the n-th firing leaves the call with
    [attempts = n] scheduled, [n] queries issued and nothing resolved. *)
Lemma run_polling n :
  n <= maxAttempts -> quiet env n ->
  control (run body env n) = (Some (n, delay_of n), n, waited n, []).
Proof.
  induction n as [|n IH]; intros Hn Hq; [reflexivity|].
  assert (Hc : control (run body env n) = (Some (n, delay_of n), n, waited n, []))
    by (apply IH; [lia | intros k Hk; apply Hq; lia]).
  unfold control in Hc; injection Hc as Ht Hqs Hcl Hr.
  rewrite run_S, (fire_query _ n (delay_of n)) by (assumption || lia).
  rewrite Hqs, (Hq n) by lia.
  rewrite Hcl, Hr, waited_step; repeat f_equal; lia.
Qed.

(** The first query that produces an outcome ends the poll. *)
Lemma run_stop n o :
  n < maxAttempts -> quiet env n -> verdict n (env n) = Some o ->
  control (run body env (S n)) = (None, S n, waited (S n), [o]).
Proof.
  intros Hn Hq Hv.
  assert (Hc : control (run body env n) = (Some (n, delay_of n), n, waited n, []))
    by (apply run_polling; [lia | assumption]).
  unfold control in Hc; injection Hc as Ht Hqs Hcl Hr.
  rewrite run_S, (fire_query _ n (delay_of n)) by (assumption || lia).
  rewrite Hqs, Hv, Hcl, Hr, waited_step; reflexivity.
Qed.

(** With no outcome in [maxAttempts] queries, the next call times out. *)
Lemma run_timeout :
  quiet env maxAttempts ->
  control (run body env (S maxAttempts)) =
  (None, maxAttempts, waited (S maxAttempts), [TimedOut]).
Proof.
  intro Hq.
  assert (Hc : control (run body env maxAttempts) =
               (Some (maxAttempts, delay_of maxAttempts), maxAttempts,
                waited maxAttempts, []))
    by (apply run_polling; [lia | assumption]).
  unfold control in Hc; injection Hc as Ht Hqs Hcl Hr.
  rewrite run_S, (fire_exhausted _ maxAttempts (delay_of maxAttempts))
    by (assumption || lia).
  rewrite Hqs, Hcl, Hr, waited_step; reflexivity.
Qed.

(** Either nothing below the bound produces an outcome, or there is a first
    query that does. *)
Lemma first_verdict b :
  quiet env b \/ exists n o, n < b /\ quiet env n /\ verdict n (env n) = Some o.
Proof.
  induction b as [|b [IH | (n & o & Hn & Hq & Hv)]].
  - left; intros k Hk; lia.
  - destruct (verdict b (env b)) as [o|] eqn:Hv.
    + right; exists b, o; auto.
    + left; intros k Hk.
      destruct (Nat.eq_dec k b) as [->|]; [exact Hv | apply IH; lia].
  - right; exists n, o; auto.
Qed.

Lemma poll_trajectory :
  (quiet env maxAttempts /\ settled_at body env (S maxAttempts) maxAttempts TimedOut) \/
  (exists n o, n < maxAttempts /\ quiet env n /\ verdict n (env n) = Some o /\
               settled_at body env (S n) (S n) o).
Proof.
  destruct (first_verdict maxAttempts) as [Hq | (n & o & Hn & Hq & Hv)].
  - left; split; [assumption|].
    repeat split; [lia | lia | apply run_timeout; assumption].
  - right; exists n, o; repeat split; try assumption; try lia.
    apply run_stop; assumption.
Qed.

Lemma settled_later n q o m :
  settled_at body env n q o -> n <= m -> run body env m = run body env n.
Proof.
  intros (_ & _ & Hc) Hm; unfold control in Hc; injection Hc as Ht _ _ _.
  replace m with (n + (m - n)) by lia; apply run_settled; exact Ht.
Qed.

Lemma settled_poll n q o :
  settled_at body env n q o -> control (poll body env) = (None, q, waited n, [o]).
Proof.
  intro H; unfold poll.
  rewrite (settled_later n q o (S maxAttempts) H) by (destruct H; lia).
  destruct H as (_ & _ & Hc); exact Hc.
Qed.

(** Every poll settles: after [maxAttempts + 1] firings at the latest no
    call is scheduled and one outcome has been resolved. *)
Lemma poll_settles :
  exists n q o, settled_at body env n q o /\ control (poll body env) = (None, q, waited n, [o]).
Proof.
  destruct poll_trajectory as [[_ H] | (n & o & _ & _ & _ & H)].
  - exists (S maxAttempts), maxAttempts, TimedOut.
    split; [exact H | eapply settled_poll; exact H].
  - exists (S n), (S n), o.
    split; [exact H | eapply settled_poll; exact H].
Qed.

(** At every point of a poll either a call is scheduled and nothing is
    resolved, or none is scheduled and exactly one outcome is resolved. *)
Lemma run_phase n :
  (exists a d, timer (run body env n) = Some (a, d) /\ resolved (run body env n) = []) \/
  (exists o, timer (run body env n) = None /\ resolved (run body env n) = [o]).
Proof.
  assert (Hpoll : forall k, k <= maxAttempts -> quiet env k ->
            exists a d, timer (run body env k) = Some (a, d) /\
                        resolved (run body env k) = []).
  { intros k Hk Hq. pose proof (run_polling k Hk Hq) as Hc.
    unfold control in Hc; injection Hc as Ht _ _ Hr; eauto. }
  assert (Hset : forall k q o, settled_at body env k q o -> k <= n ->
            exists o', timer (run body env n) = None /\
                       resolved (run body env n) = [o']).
  { intros k q o H Hk. rewrite (settled_later k q o n H Hk).
    destruct H as (_ & _ & Hc); unfold control in Hc.
    injection Hc as Ht _ _ Hr; eauto. }
  destruct poll_trajectory as [[Hq H] | (k & o & Hk & Hq & Hv & H)].
  - destruct (le_lt_dec n maxAttempts) as [Hn | Hn].
    + left; apply Hpoll; [assumption | intros j Hj; apply Hq; lia].
    + right; eapply Hset; [exact H | lia].
  - destruct (le_lt_dec n k) as [Hn | Hn].
    + left; apply Hpoll; [lia | intros j Hj; apply Hq; lia].
    + right; eapply Hset; [exact H | lia].
Qed.

(** The number of queries never exceeds the number of firings nor
    [maxAttempts]. *)
Lemma run_queries_bound n : queries (run body env n) <= maxAttempts.
Proof.
  assert (Hpoll : forall k, k <= maxAttempts -> quiet env k ->
            queries (run body env k) = k).
  { intros k Hk Hq. pose proof (run_polling k Hk Hq) as Hc.
    unfold control in Hc; injection Hc as _ Hqs _ _; exact Hqs. }
  assert (Hset : forall k q o, settled_at body env k q o -> k <= n ->
            queries (run body env n) <= maxAttempts).
  { intros k q o H Hk. rewrite (settled_later k q o n H Hk).
    destruct H as (_ & Hq & Hc); unfold control in Hc.
    injection Hc as _ Hqs _ _; lia. }
  destruct poll_trajectory as [[Hq H] | (k & o & Hk & Hq & Hv & H)].
  - destruct (le_lt_dec n maxAttempts) as [Hn | Hn].
    + rewrite Hpoll; [lia | lia | intros j Hj; apply Hq; lia].
    + eapply Hset; [exact H | lia].
  - destruct (le_lt_dec n k) as [Hn | Hn].
    + rewrite Hpoll; [lia | lia | intros j Hj; apply Hq; lia].
    + eapply Hset; [exact H | lia].
Qed.

End Trajectory.

(** ** Helper facts for the statements below *)

Lemma poll_eq body env : poll body env = run body env (S maxAttempts).
Proof. reflexivity. Qed.

Lemma control_fields rt t q c r :
  control rt = (t, q, c, r) ->
  timer rt = t /\ queries rt = q /\ clock rt = c /\ resolved rt = r.
Proof. unfold control; intro H; injection H; auto. Qed.

Lemma strict_eq_true v s : strict_eq v s = true <-> v = Some s.
Proof.
  destruct v as [x|]; cbn.
  - rewrite String.eqb_eq; split; [intros ->; reflexivity | intro H; injection H; auto].
  - split; discriminate.
Qed.

Lemma strict_eq_false v s : strict_eq v s = false <-> v <> Some s.
Proof.
  rewrite <- strict_eq_true; destruct (strict_eq v s); split;
    (discriminate || congruence || auto).
Qed.

Lemma pending_verdict k r : pending_response r = true -> verdict k r = None.
Proof.
  intro H; apply nonterminal_verdict; destruct r; [exact H | discriminate].
Qed.

Lemma unmount_control rt : control (unmount rt) = control rt.
Proof. reflexivity. Qed.

Lemma fire_unmount body env rt :
  fire body env (unmount rt) = unmount (fire body env rt).
Proof.
  unfold fire; cbn.
  destruct (timer rt) as [[a d]|]; [|reflexivity].
  destruct (body a) as [c|k]; [destruct c | destruct (k _)]; reflexivity.
Qed.

Lemma run_from_unmount body env rt n :
  run_from body env (unmount rt) n = unmount (run_from body env rt n).
Proof.
  revert rt; induction n as [|n IH]; intro rt; cbn; [reflexivity|].
  rewrite fire_unmount; apply IH.
Qed.

(** From [maxAttempts + 1] invocations on, one outcome is resolved. *)
Lemma poll_terminates_aux body env :
  follows_skeleton body ->
  forall m, S maxAttempts <= m -> exists o, resolved (run body env m) = [o].
Proof.
  intros Hsk m Hm.
  destruct (poll_settles body env Hsk) as (n & q & o & Hs & _).
  exists o; rewrite (settled_later body env n q o m Hs)
    by (destruct Hs; lia).
  destruct Hs as (_ & _ & Hc).
  destruct (control_fields _ _ _ _ _ Hc) as (_ & _ & _ & Hr); exact Hr.
Qed.

(** Two routines that follow the skeleton move the control state alike. *)
Lemma fire_control_eq body1 body2 env rt1 rt2 :
  follows_skeleton body1 -> follows_skeleton body2 ->
  control rt1 = control rt2 ->
  control (fire body1 env rt1) = control (fire body2 env rt2).
Proof.
  intros H1 H2 Hc.
  destruct (control_fields rt2 _ _ _ _ (eq_sym Hc)) as (Ht & Hq & Hcl & Hr).
  destruct (timer rt1) as [[a d]|] eqn:Ht1.
  - destruct (le_lt_dec maxAttempts a) as [Ha | Ha].
    + rewrite (fire_exhausted body1 env H1 rt1 a d), (fire_exhausted body2 env H2 rt2 a d)
        by assumption.
      rewrite Hq, Hcl, Hr; reflexivity.
    + rewrite (fire_query body1 env H1 rt1 a d), (fire_query body2 env H2 rt2 a d)
        by assumption.
      rewrite Hq, Hcl, Hr; reflexivity.
  - rewrite !fire_idle by assumption; exact Hc.
Qed.

Lemma run_control_eq body1 body2 env n :
  follows_skeleton body1 -> follows_skeleton body2 ->
  control (run body1 env n) = control (run body2 env n).
Proof.
  intros H1 H2; induction n as [|n IH]; [reflexivity|].
  rewrite !run_S; apply fire_control_eq; assumption.
Qed.

(** ** Transport failures *)

(** C1, as the code has it: the routines keep no count of transport failures
    and a successful query resets nothing.  Whatever mix of transport
    failures and pending responses answers the first three queries, a
    transport failure on the fourth query resolves [Failed], after exactly
    four queries and 6000 ms of waiting. *)
Theorem failure_on_fourth_query_fails (p : Poller) (env : nat -> QueryResult) :
  (forall k, k < 3 -> env k = TransportError \/ pending_response (env k) = true) ->
  env 3 = TransportError ->
  resolved (poll (routine p) env) = [Failed] /\
  queries (poll (routine p) env) = 4 /\
  clock (poll (routine p) env) = 6000%Z /\
  timer (poll (routine p) env) = None.
Proof.
  intros Hfirst Hfourth.
  assert (Hq : quiet env 3).
  { intros k Hk; destruct (Hfirst k Hk) as [-> | H].
    - unfold verdict; apply Nat.ltb_lt in Hk; rewrite Hk; reflexivity.
    - apply pending_verdict; exact H. }
  assert (Hv : verdict 3 (env 3) = Some Failed) by (rewrite Hfourth; reflexivity).
  assert (Hs : settled_at (routine p) env 4 4 Failed).
  { repeat split; [budget | budget |].
    apply run_stop; [apply routine_skeleton | budget | exact Hq | exact Hv]. }
  destruct (control_fields _ _ _ _ _ (settled_poll _ _ 4 4 Failed Hs))
    as (Ht & Hqs & Hcl & Hr).
  auto.
Qed.

Lemma failure_on_fourth_query_fails_witness :
  two_failures_pending_two_failures 3 = TransportError /\
  resolved (poll pollPaymentStatus two_failures_pending_two_failures) = [Failed] /\
  queries (poll pollPaymentStatus two_failures_pending_two_failures) = 4.
Proof.
  split; [reflexivity|].
  destruct (failure_on_fourth_query_fails ConsultationsScreen
              two_failures_pending_two_failures) as (Hr & Hq & _).
  - intros k Hk.
    destruct k as [|[|[|k]]]; [left | left | right | lia]; reflexivity.
  - reflexivity.
  - split; assumption.
Defined.

(** The sequence of C1 run through the code: the fourth query is the third
    transport failure, it does not follow two others directly, and the poll
    resolves [Failed] on it instead of going on. *)
Lemma two_failures_pending_two_failures_fails :
  map two_failures_pending_two_failures [0; 1; 2; 3; 4] = [F; F; P; F; F] /\
  resolved (run pollPaymentStatus two_failures_pending_two_failures 4) = [Failed] /\
  timer (run pollPaymentStatus two_failures_pending_two_failures 4) = None /\
  resolved (poll pollPaymentStatus two_failures_pending_two_failures) = [Failed] /\
  queries (poll pollPaymentStatus two_failures_pending_two_failures) = 4.
Proof. repeat split; reflexivity. Qed.

(** C2, as the code has it: a transport failure resolves [Failed] exactly
    when it answers an invocation with [attempts >= 3], that is the fourth or
    a later query, whatever the earlier queries returned; one that answers
    one of the first three queries schedules the next call.  So a poll whose
    first four queries all fail resolves [Failed] after exactly four queries,
    and no fifth query is ever issued. *)
Theorem transport_failure_fails_from_fourth_query (p : Poller) :
  (forall attempts, attempts < maxAttempts ->
     exists k, routine p attempts = AwaitStatus k /\
       (decision (k TransportError) = Stop Failed <-> 3 <= attempts) /\
       (decision (k TransportError) = Again (attempts + 1) pollInterval <-> attempts < 3)) /\
  (forall env, (forall k, k < 4 -> env k = TransportError) ->
     resolved (run (routine p) env 3) = [] /\
     queries (run (routine p) env 3) = 3 /\
     resolved (poll (routine p) env) = [Failed] /\
     forall m, 4 <= m -> queries (run (routine p) env m) = 4).
Proof.
  split.
  - intros a Ha.
    destruct (proj2 (routine_skeleton p a) Ha) as [k [Hk Hd]].
    exists k; split; [exact Hk|].
    rewrite Hd; unfold skeleton, verdict.
    destruct (a <? 3)%nat eqn:E;
      [apply Nat.ltb_lt in E | apply Nat.ltb_ge in E];
      split; split; intro H; try discriminate; try lia; reflexivity.
  - intros env Hfail.
    assert (Hq : quiet env 3).
    { intros k Hk; rewrite Hfail by lia; unfold verdict.
      apply Nat.ltb_lt in Hk; rewrite Hk; reflexivity. }
    assert (Hv : verdict 3 (env 3) = Some Failed) by (rewrite Hfail by lia; reflexivity).
    pose proof (routine_skeleton p) as Hsk.
    assert (Hs : settled_at (routine p) env 4 4 Failed).
    { repeat split; [budget | budget |].
      apply run_stop; [exact Hsk | budget | exact Hq | exact Hv]. }
    destruct (control_fields _ _ _ _ _
                (run_polling (routine p) env Hsk 3 ltac:(budget) Hq))
      as (_ & Hq3 & _ & Hr3).
    destruct (control_fields _ _ _ _ _ (settled_poll _ _ 4 4 Failed Hs))
      as (_ & _ & _ & Hr).
    repeat split; try assumption.
    intros m Hm; rewrite (settled_later _ _ 4 4 Failed m Hs Hm).
    destruct Hs as (_ & _ & Hc).
    destruct (control_fields _ _ _ _ _ Hc) as (_ & Hq4 & _); exact Hq4.
Qed.

Lemma transport_failure_fails_from_fourth_query_witness :
  (exists k, pollPaymentStatus 3 = AwaitStatus k /\
             (decision (k TransportError) = Stop Failed <-> 3 <= 3)) /\
  resolved (poll pollPaymentStatus (always F)) = [Failed] /\
  queries (run pollPaymentStatus (always F) 4) = 4.
Proof.
  destruct (transport_failure_fails_from_fourth_query ConsultationsScreen) as [Hone Hrun].
  split.
  - destruct (Hone 3 ltac:(budget)) as [k [Hk [Hf _]]].
    exists k; split; assumption.
  - destruct (Hrun (always F) (fun k _ => eq_refl)) as (_ & _ & Hr & Hq).
    split; [exact Hr | apply Hq; lia].
Defined.

(** Exactly three transport failures from the start, run through the code:
    after the third query nothing is resolved and the next call is
    scheduled, a fourth query is issued, and the poll ends in [TimedOut]
    after ten queries, never in [Failed].  Conversely the first transport
    failure of a poll, when it answers the fourth query, resolves [Failed]
    at once. *)
Lemma three_failures_then_fourth_query :
  map three_failures_then_pending [0; 1; 2; 3] = [F; F; F; P] /\
  queries (run pollPaymentStatus three_failures_then_pending 3) = 3 /\
  resolved (run pollPaymentStatus three_failures_then_pending 3) = [] /\
  timer (run pollPaymentStatus three_failures_then_pending 3) = Some (3, pollInterval) /\
  queries (run pollPaymentStatus three_failures_then_pending 4) = 4 /\
  resolved (poll pollPaymentStatus three_failures_then_pending) = [TimedOut] /\
  queries (poll pollPaymentStatus three_failures_then_pending) = 10 /\
  map three_pending_then_failure [0; 1; 2; 3] = [P; P; P; F] /\
  resolved (poll pollPaymentStatus three_pending_then_failure) = [Failed] /\
  queries (poll pollPaymentStatus three_pending_then_failure) = 4.
Proof. repeat split; reflexivity. Qed.

(** ** Pending and paid responses *)

(** C3: when every query succeeds with a response that is neither paid nor
    expired, the poll issues exactly [maxAttempts] = 10 queries, resolves
    nothing while it does so, then resolves [TimedOut]; no further query is
    issued afterwards. *)
Theorem all_pending_times_out (p : Poller) (env : nat -> QueryResult) :
  (forall k, pending_response (env k) = true) ->
  queries (run (routine p) env maxAttempts) = 10 /\
  resolved (run (routine p) env maxAttempts) = [] /\
  resolved (poll (routine p) env) = [TimedOut] /\
  timer (poll (routine p) env) = None /\
  forall m, S maxAttempts <= m ->
    queries (run (routine p) env m) = 10 /\
    resolved (run (routine p) env m) = [TimedOut].
Proof.
  intro Hpending.
  pose proof (routine_skeleton p) as Hsk.
  assert (Hq : quiet env maxAttempts)
    by (intros k _; apply pending_verdict, Hpending).
  destruct (control_fields _ _ _ _ _
              (run_polling (routine p) env Hsk maxAttempts (le_n _) Hq))
    as (_ & Hq10 & _ & Hr10).
  destruct (control_fields _ _ _ _ _ (run_timeout (routine p) env Hsk Hq))
    as (Ht & Hq11 & _ & Hr11).
  repeat split; try assumption.
  - replace m with (S maxAttempts + (m - S maxAttempts)) by lia.
    rewrite run_settled by exact Ht; exact Hq11.
  - replace m with (S maxAttempts + (m - S maxAttempts)) by lia.
    rewrite run_settled by exact Ht; exact Hr11.
Qed.

Lemma all_pending_times_out_witness :
  (forall k, pending_response (always P k) = true) /\
  queries (run pollPaymentStatus (always P) maxAttempts) = 10 /\
  resolved (poll pollPaymentStatus (always P)) = [TimedOut].
Proof.
  split; [intro k; reflexivity|].
  destruct (all_pending_times_out ConsultationsScreen (always P) (fun k => eq_refl))
    as (Hq & _ & Hr & _).
  split; assumption.
Defined.

(** C4, within the attempt budget: when the N-th query, 1 <= N <= 10, is
    answered by a paid response and each earlier query by a result after
    which the poll goes on (a pending response, or a transport failure on one
    of the first three queries), the poll issues exactly N queries, waits
    (N - 1) * 2000 ms in all, resolves [Paid], and never issues another
    query. *)
Theorem paid_on_nth_query (p : Poller) (env : nat -> QueryResult) (N : nat) :
  1 <= N <= maxAttempts ->
  (forall k, k < N - 1 -> nonterminal k (env k) = true) ->
  (exists d, env (N - 1) = Response d /\ payment_status d = Some "paid"%string) ->
  queries (poll (routine p) env) = N /\
  clock (poll (routine p) env) = ((Z.of_nat N - 1) * pollInterval)%Z /\
  resolved (poll (routine p) env) = [Paid] /\
  timer (poll (routine p) env) = None /\
  forall m, N <= m -> queries (run (routine p) env m) = N.
Proof.
  intros HN Hbefore (d & Hd & Hpaid).
  pose proof (routine_skeleton p) as Hsk.
  assert (Hq : quiet env (N - 1))
    by (intros k Hk; apply nonterminal_verdict, Hbefore, Hk).
  assert (Hv : verdict (N - 1) (env (N - 1)) = Some Paid).
  { rewrite Hd; cbn; unfold is_paid.
    rewrite (proj2 (strict_eq_true _ _) Hpaid); reflexivity. }
  assert (Hs : settled_at (routine p) env N N Paid).
  { repeat split; try lia.
    replace N with (S (N - 1)) at 1 2 3 by lia.
    apply run_stop; [exact Hsk | lia | exact Hq | exact Hv]. }
  destruct (control_fields _ _ _ _ _ (settled_poll _ _ N N Paid Hs))
    as (Ht & Hqs & Hcl & Hr).
  repeat split; try assumption.
  - rewrite Hcl; unfold waited; f_equal; lia.
  - intros m Hm; rewrite (settled_later _ _ N N Paid m Hs Hm).
    destruct Hs as (_ & _ & Hc).
    destruct (control_fields _ _ _ _ _ Hc) as (_ & HqN & _); exact HqN.
Qed.

Lemma paid_on_nth_query_witness :
  1 <= 3 <= maxAttempts /\
  queries (poll pollPaymentStatus paid_on_third) = 3 /\
  clock (poll pollPaymentStatus paid_on_third) = 4000%Z /\
  resolved (poll pollPaymentStatus paid_on_third) = [Paid].
Proof.
  split; [budget|].
  destruct (paid_on_nth_query ConsultationsScreen paid_on_third 3)
    as (Hq & Hc & Hr & _).
  - budget.
  - intros k Hk; destruct k as [|[|k]]; [reflexivity | reflexivity | cbn in Hk; lia].
  - exists paid_data; split; reflexivity.
  - repeat split; assumption.
Defined.

(** The 11th response reports paid and the ten before it are pending: the
    code issues ten queries and resolves [TimedOut]; the paid response is
    never asked for. *)
Lemma paid_on_eleventh_times_out :
  map ten_pending_then_paid [0; 1; 2; 3; 4; 5; 6; 7; 8; 9] = repeat P 10 /\
  ten_pending_then_paid 10 = Response paid_data /\
  payment_status paid_data = Some "paid"%string /\
  queries (poll pollPaymentStatus ten_pending_then_paid) = 10 /\
  resolved (poll pollPaymentStatus ten_pending_then_paid) = [TimedOut].
Proof. repeat split; reflexivity. Qed.

(** ** Classifying one response *)

(** C5: an invocation that queries classifies a successful response by two
    tests on the one response object: [payment_status] equal to "paid"
    resolves [Paid]; otherwise [status] equal to "expired" resolves
    [Expired]; every other response resolves nothing and schedules the next
    call with [attempts + 1] after [pollInterval]. *)
Theorem response_classification (p : Poller) (attempts : nat) (d : StatusData) :
  attempts < maxAttempts ->
  exists k, routine p attempts = AwaitStatus k /\
    (payment_status d = Some "paid"%string ->
       decision (k (Response d)) = Stop Paid) /\
    (payment_status d <> Some "paid"%string -> status d = Some "expired"%string ->
       decision (k (Response d)) = Stop Expired) /\
    (payment_status d <> Some "paid"%string -> status d <> Some "expired"%string ->
       k (Response d) = SetTimeout (attempts + 1) pollInterval []).
Proof.
  intro Ha; apply Nat.leb_gt in Ha.
  destruct p as [|details]; cbn [routine];
    [unfold pollPaymentStatus | unfold verifyPaymentStatus];
    rewrite Ha; eexists; (split; [reflexivity|]); cbn beta iota;
    (split; [|split]).
  all: try (intro Hp; apply strict_eq_true in Hp; rewrite Hp; reflexivity).
  all: try (intros Hp He; apply strict_eq_false in Hp; apply strict_eq_true in He;
            rewrite Hp, He; reflexivity).
  all: intros Hp He; apply strict_eq_false in Hp; apply strict_eq_false in He;
       rewrite Hp, He; reflexivity.
Qed.

Lemma response_classification_witness :
  3 < maxAttempts /\
  exists k, pollPaymentStatus 3 = AwaitStatus k /\
    k (Response pending_data) = SetTimeout 4 pollInterval [] /\
    decision (k (Response expired_data)) = Stop Expired.
Proof.
  split; [budget|].
  destruct (response_classification ConsultationsScreen 3 pending_data ltac:(budget))
    as (k & Hk & _ & _ & Hpending).
  exists k; split; [exact Hk|]; split.
  - apply Hpending; discriminate.
  - cbn in Hk; injection Hk as <-; reflexivity.
Defined.

(** C10: a response that is both paid and expired resolves [Paid], since the
    paid test comes first; [Expired] is resolved only for a response whose
    [payment_status] is not "paid".  A poll whose first response is such a
    response resolves [Paid] after one query. *)
Theorem paid_checked_before_expired (p : Poller) (attempts : nat) (d : StatusData) :
  attempts < maxAttempts ->
  exists k, routine p attempts = AwaitStatus k /\
    (payment_status d = Some "paid"%string -> status d = Some "expired"%string ->
       decision (k (Response d)) = Stop Paid) /\
    (decision (k (Response d)) = Stop Expired ->
       payment_status d <> Some "paid"%string /\ status d = Some "expired"%string) /\
    (forall env, env 0 = Response d ->
       payment_status d = Some "paid"%string -> status d = Some "expired"%string ->
       resolved (poll (routine p) env) = [Paid] /\ queries (poll (routine p) env) = 1).
Proof.
  intro Ha.
  destruct (proj2 (routine_skeleton p attempts) Ha) as [k [Hk Hd]].
  exists k; split; [exact Hk|]; split; [|split].
  - intros Hp _; rewrite Hd; unfold skeleton, verdict, is_paid.
    rewrite (proj2 (strict_eq_true _ _) Hp); reflexivity.
  - rewrite Hd; unfold skeleton, verdict, is_paid, is_expired.
    destruct (strict_eq (payment_status d) "paid") eqn:Ep; [discriminate|].
    destruct (strict_eq (status d) "expired") eqn:Ee; [|discriminate].
    intros _; split; [apply strict_eq_false, Ep | apply strict_eq_true, Ee].
  - intros env H0 Hp _.
    assert (Hs : settled_at (routine p) env 1 1 Paid).
    { repeat split; [budget | budget |].
      apply run_stop; [apply routine_skeleton | budget | intros j Hj; lia |].
      rewrite H0; unfold verdict, is_paid.
      rewrite (proj2 (strict_eq_true _ _) Hp); reflexivity. }
    destruct (control_fields _ _ _ _ _ (settled_poll _ _ 1 1 Paid Hs))
      as (_ & Hq & _ & Hr).
    split; assumption.
Qed.

Lemma paid_checked_before_expired_witness :
  0 < maxAttempts /\
  exists k, pollPaymentStatus 0 = AwaitStatus k /\
    decision (k (Response paid_and_expired_data)) = Stop Paid /\
    resolved (poll pollPaymentStatus (always (Response paid_and_expired_data))) = [Paid].
Proof.
  split; [budget|].
  destruct (paid_checked_before_expired ConsultationsScreen 0 paid_and_expired_data
              ltac:(budget)) as (k & Hk & Hboth & _ & Hrun).
  exists k; split; [exact Hk|]; split.
  - apply Hboth; reflexivity.
  - apply (Hrun (always (Response paid_and_expired_data))); reflexivity.
Defined.

(** ** Termination, outcomes and phases *)

(** C6: for every endpoint behaviour, finite or not, the poll comes to rest
    within [maxAttempts + 1] invocations: no call is left scheduled, exactly
    one of the four outcomes has been resolved, at most 10 status queries are
    issued at any point, and nothing changes afterwards. *)
Theorem poll_terminates (p : Poller) (env : nat -> QueryResult) :
  exists o,
    (o = Paid \/ o = Expired \/ o = TimedOut \/ o = Failed) /\
    timer (poll (routine p) env) = None /\
    resolved (poll (routine p) env) = [o] /\
    queries (poll (routine p) env) <= 10 /\
    (forall n, queries (run (routine p) env n) <= 10) /\
    (forall m, run (routine p) env (S maxAttempts + m) = poll (routine p) env).
Proof.
  pose proof (routine_skeleton p) as Hsk.
  destruct (poll_settles (routine p) env Hsk) as (n & q & o & Hs & Hc).
  destruct (control_fields _ _ _ _ _ Hc) as (Ht & Hq & _ & Hr).
  rewrite poll_eq in *.
  exists o; repeat split.
  - destruct o; auto.
  - exact Ht.
  - exact Hr.
  - pose proof (run_queries_bound (routine p) env Hsk (S maxAttempts)) as Hb.
    unfold maxAttempts in Hb at 2; exact Hb.
  - intro k; pose proof (run_queries_bound (routine p) env Hsk k) as Hb.
    unfold maxAttempts in Hb; exact Hb.
  - intro m; exact (run_settled (routine p) env (S maxAttempts) m Ht).
Qed.

(** C7: at every point of a poll exactly one phase holds (still polling,
    terminal success, terminal expiry, terminal error); at most one outcome
    has been resolved at any point and exactly one at the end; and from the
    point where an outcome is resolved the state never changes again, so no
    further status query is issued. *)
Theorem terminal_states_absorbing (p : Poller) (env : nat -> QueryResult) (n : nat) :
  (exists ph, in_phase ph (run (routine p) env n) /\
              forall ph', in_phase ph' (run (routine p) env n) -> ph' = ph) /\
  length (resolved (run (routine p) env n)) <= 1 /\
  (exists o, resolved (poll (routine p) env) = [o]) /\
  (resolved (run (routine p) env n) <> [] ->
     forall m, run (routine p) env (n + m) = run (routine p) env n).
Proof.
  pose proof (routine_skeleton p) as Hsk.
  pose proof (run_phase (routine p) env Hsk n) as Hph.
  split; [|split; [|split]].
  - destruct Hph as [(a & d & Ht & Hr) | (o & Ht & Hr)].
    + exists StillPolling; split.
      * split; [rewrite Ht; discriminate | exact Hr].
      * intros [] H; cbn in H; destruct H as [H1 H2]; congruence.
    + destruct o;
        [exists TerminalSuccess | exists TerminalExpired
         | exists TerminalError | exists TerminalError];
        (split; [cbn; auto |]);
        intros [] H; cbn in H; destruct H as [H1 H2];
        try reflexivity; try congruence;
        destruct H2; congruence.
  - destruct Hph as [(a & d & _ & ->) | (o & _ & ->)]; cbn; lia.
  - destruct (poll_settles (routine p) env Hsk) as (k & q & o & _ & Hc).
    destruct (control_fields _ _ _ _ _ Hc) as (_ & _ & _ & Hr); eauto.
  - intros Hne m.
    destruct Hph as [(a & d & _ & Hr) | (o & Ht & _)]; [contradiction|].
    exact (run_settled (routine p) env n m Ht).
Qed.

Lemma terminal_states_absorbing_witness :
  resolved (run pollPaymentStatus paid_on_third 3) <> [] /\
  run pollPaymentStatus paid_on_third (3 + 5) = run pollPaymentStatus paid_on_third 3.
Proof.
  split; [discriminate|].
  destruct (terminal_states_absorbing ConsultationsScreen paid_on_third 3)
    as (_ & _ & _ & Habs).
  apply Habs; discriminate.
Defined.

(** ** The two screens *)

(** C8: for every endpoint behaviour and after any number of invocations,
    [pollPaymentStatus] and [verifyPaymentStatus] have the same call
    scheduled, have issued the same number of status queries, have waited
    the same time and have resolved the same outcome; so have the finished
    polls. *)
Theorem screens_poll_alike (details : string -> bool) (env : nat -> QueryResult) :
  (forall n, control (run pollPaymentStatus env n) =
             control (run (verifyPaymentStatus details) env n)) /\
  resolved (poll pollPaymentStatus env) =
    resolved (poll (verifyPaymentStatus details) env) /\
  queries (poll pollPaymentStatus env) =
    queries (poll (verifyPaymentStatus details) env).
Proof.
  assert (H : forall n, control (run pollPaymentStatus env n) =
                        control (run (verifyPaymentStatus details) env n)).
  { intro n; apply run_control_eq;
      [apply pollPaymentStatus_skeleton | apply verifyPaymentStatus_skeleton]. }
  split; [exact H|].
  pose proof (H (S maxAttempts)) as Hc; unfold control in Hc.
  injection Hc as _ Hq _ Hr; split; assumption.
Qed.

(** ** Dismissing the screen *)

(** C9, as the code has it: the routines offer no way to cancel.  The
    identifier of the timer is dropped and the mounting effect has no
    cleanup, so dismissing the screen after any number [k] of invocations
    changes nothing in the poll: the same calls stay scheduled, the same
    queries are issued and the same single outcome is resolved as in a poll
    that is left alone.  Dismissing twice is the same as dismissing once. *)
Theorem dismissal_does_not_cancel (p : Poller) (env : nat -> QueryResult) (k n : nat) :
  control (run_dismissed (routine p) env k n) = control (run (routine p) env (k + n)) /\
  (exists o, resolved (run_dismissed (routine p) env k (S maxAttempts)) = [o]) /\
  unmount (unmount (run (routine p) env k)) = unmount (run (routine p) env k).
Proof.
  pose proof (routine_skeleton p) as Hsk.
  assert (H : forall j, control (run_dismissed (routine p) env k j) =
                        control (run (routine p) env (k + j))).
  { intro j; unfold run_dismissed.
    rewrite run_from_unmount, unmount_control, run_add; reflexivity. }
  split; [apply H | split; [|reflexivity]].
  destruct (poll_terminates_aux (routine p) env Hsk (k + S maxAttempts)) as [o Ho].
  { lia. }
  exists o.
  destruct (control_fields _ _ _ _ _ (eq_sym (H (S maxAttempts)))) as (_ & _ & _ & Hr).
  rewrite <- Hr; exact Ho.
Qed.

(** The screen is dismissed between the second and the third query of a
    poll that only gets pending responses: the third query is issued all the
    same, and later the time-out is resolved. *)
Lemma dismissed_poll_goes_on :
  queries (run pollPaymentStatus (always P) 2) = 2 /\
  mounted (run_dismissed pollPaymentStatus (always P) 2 0) = false /\
  queries (run_dismissed pollPaymentStatus (always P) 2 1) = 3 /\
  resolved (run_dismissed pollPaymentStatus (always P) 2 9) = [TimedOut] /\
  effects (run_dismissed pollPaymentStatus (always P) 2 9) =
    [Alert "Error" "Payment status check timed out. Please check your consultation history.";
     SetShowPaymentStatus false].
Proof. repeat split; reflexivity. Qed.

(** ** The effects of a poll and what the screens show *)

Lemma run_from_S body env rt n :
  run_from body env rt (S n) = fire body env (run_from body env rt n).
Proof.
  replace (S n) with (n + 1) by lia; rewrite run_from_add; reflexivity.
Qed.

Lemma start_shape p env : effects_shape p env start.
Proof. apply (shape_polling p env start 0 0%Z); reflexivity. Qed.

(** One firing keeps the shape of the effects. *)
Lemma fire_shape p env rt :
  effects_shape p env rt -> effects_shape p env (fire (routine p) env rt).
Proof.
  intros [a d Ht Hr Hl | o dta logs Ht Hr Hl He Hp].
  - unfold fire; rewrite Ht.
    assert (Hdone : forall o dta fx rt',
              timer rt' = None -> resolved rt' = resolved rt ++ [o] ->
              effects rt' = effects rt ++ fx -> fx = final_effects p o dta ->
              (o = Paid -> env (Nat.pred (queries rt')) = Response dta /\
                           is_paid dta = true) ->
              effects_shape p env rt').
    { intros o dta fx rt' H1 H2 H3 H4 H5.
      apply (shape_done p env rt' o dta (effects rt)); try assumption.
      - rewrite H2, Hr; reflexivity.
      - rewrite H3, H4; reflexivity. }
    assert (Hgo : forall a' d' fx rt',
              timer rt' = Some (a', d') -> resolved rt' = resolved rt ->
              effects rt' = effects rt ++ fx -> forallb is_log fx = true ->
              effects_shape p env rt').
    { intros a' d' fx rt' H1 H2 H3 H4.
      apply (shape_polling p env rt' a' d'); try assumption.
      - rewrite H2; exact Hr.
      - rewrite H3, forallb_app, Hl, H4; reflexivity. }
    destruct p as [|details]; cbn [routine];
      [unfold pollPaymentStatus | unfold verifyPaymentStatus];
      (destruct (maxAttempts <=? a)%nat;
       [ eapply (Hdone TimedOut pending_data); try reflexivity; discriminate
       | cbv zeta; cbn [timer mounted queries clock resolved effects];
         destruct (env (queries rt)) as [dta|] eqn:Henv;
         [ destruct (strict_eq (payment_status dta) "paid") eqn:Epaid;
           [ eapply (Hdone Paid dta); try reflexivity;
             intros _; split; [exact Henv | exact Epaid]
           | destruct (strict_eq (status dta) "expired") eqn:Eexp;
             [ eapply (Hdone Expired dta); try reflexivity; discriminate
             | eapply Hgo; reflexivity ] ]
         | destruct (a <? 3)%nat;
           [ eapply Hgo; reflexivity
           | eapply (Hdone Failed pending_data); try reflexivity; discriminate ] ] ]).
  - rewrite fire_idle by exact Ht.
    apply (shape_done _ _ _ o dta logs); assumption.
Qed.

Lemma run_from_shape p env rt n :
  effects_shape p env rt -> effects_shape p env (run_from (routine p) env rt n).
Proof.
  intro H; induction n as [|n IH]; [exact H|].
  rewrite run_from_S; apply fire_shape; exact IH.
Qed.

Lemma run_shape p env n : effects_shape p env (run (routine p) env n).
Proof. apply run_from_shape, start_shape. Qed.

Lemma logs_success_ui logs ui :
  forallb is_log logs = true -> fold_left success_effect logs ui = ui.
Proof.
  revert ui; induction logs as [|e logs IH]; intros ui H; [reflexivity|].
  cbn in H; apply andb_prop in H; destruct H as [He Hl].
  destruct e; try discriminate; cbn; apply IH; exact Hl.
Qed.

Lemma logs_consultations_ui logs ui :
  forallb is_log logs = true -> fold_left consultations_effect logs ui = ui.
Proof.
  revert ui; induction logs as [|e logs IH]; intros ui H; [reflexivity|].
  cbn in H; apply andb_prop in H; destruct H as [He Hl].
  destruct e; try discriminate; cbn; apply IH; exact Hl.
Qed.

Lemma logs_alerts logs : forallb is_log logs = true -> alerts logs = [].
Proof.
  induction logs as [|e logs IH]; intro H; [reflexivity|].
  cbn in H; apply andb_prop in H; destruct H as [He Hl].
  destruct e; try discriminate; cbn; apply IH; exact Hl.
Qed.

Lemma alerts_app l1 l2 : alerts (l1 ++ l2) = alerts l1 ++ alerts l2.
Proof. apply filter_app. Qed.

(** The shape of the effects once the poll has run its course. *)
Lemma poll_shape_done p env n :
  S maxAttempts <= n ->
  exists o dta logs,
    resolved (run (routine p) env n) = [o] /\
    forallb is_log logs = true /\
    effects (run (routine p) env n) = logs ++ final_effects p o dta /\
    (o = Paid -> env (Nat.pred (queries (run (routine p) env n))) = Response dta /\
                 is_paid dta = true).
Proof.
  intro Hn.
  destruct (poll_terminates_aux (routine p) env (routine_skeleton p) n Hn) as [o' Ho'].
  destruct (run_shape p env n) as [a d Ht Hr Hl | o dta logs Ht Hr Hl He Hp].
  - rewrite Hr in Ho'; discriminate.
  - exists o, dta, logs; auto.
Qed.

Lemma mount_with_session sp :
  param_truthy sp = true -> mountConsultationSuccess sp = start.
Proof. unfold mountConsultationSuccess; intros ->; reflexivity. Qed.

Lemma success_ui_done details o dta logs :
  forallb is_log logs = true ->
  success_ui (logs ++ final_effects (SuccessScreen details) o dta) =
  match o with
  | Paid => {| loading := false; paymentStatus := "success";
               consultationDetails := shown_details details dta |}
  | Expired => {| loading := false; paymentStatus := "expired";
                  consultationDetails := None |}
  | TimedOut => {| loading := false; paymentStatus := "";
                   consultationDetails := None |}
  | Failed => {| loading := false; paymentStatus := "error";
                 consultationDetails := None |}
  end.
Proof.
  intro Hl; unfold success_ui.
  rewrite fold_left_app, (logs_success_ui logs _ Hl).
  destruct o; try reflexivity.
  cbn [final_effects]; unfold loadDetails, shown_details.
  destruct (truthy (consultation_request_id dta)) as [id|]; [|reflexivity].
  destruct (details id); reflexivity.
Qed.



(** X2: the payment-success screen shows the loading view exactly as long as
    the poll has resolved no outcome. *)
Theorem success_screen_loading_while_polling (details : string -> bool)
    (sp : SearchParam) (env : nat -> QueryResult) (n : nat) :
  param_truthy sp = true ->
  (renderConsultationSuccess (success_ui (effects (success_after details sp env n)))
   = LoadingView
   <-> resolved (success_after details sp env n) = []).
Proof.
  intro Hsp; unfold success_after; rewrite (mount_with_session sp Hsp).
  change (run_from (verifyPaymentStatus details) env start n)
    with (run (routine (SuccessScreen details)) env n).
  destruct (run_shape (SuccessScreen details) env n)
    as [a d Ht Hr Hl | o dta logs Ht Hr Hl He Hp].
  - unfold success_ui; rewrite (logs_success_ui _ _ Hl), Hr.
    split; reflexivity.
  - rewrite He, (success_ui_done details o dta logs Hl), Hr.
    split; [|discriminate].
    destruct o; discriminate.
Qed.

Lemma success_screen_loading_while_polling_witness :
  param_truthy (ManyParams []) = true /\
  renderConsultationSuccess
    (success_ui (effects (success_after (fun _ => false) (ManyParams []) (always P) 4)))
  = LoadingView.
Proof.
  split; [reflexivity|].
  apply (success_screen_loading_while_polling (fun _ => false) (ManyParams [])
           (always P) 4 eq_refl); reflexivity.
Defined.

(** X3: without a usable [session_id] (absent, or the empty string) the
    payment-success screen never issues a status query: it stops loading,
    alerts once and shows the error view, whatever the endpoint would
    answer. *)
Theorem success_screen_without_session (details : string -> bool) (sp : SearchParam)
    (env : nat -> QueryResult) (n : nat) :
  param_truthy sp = false ->
  queries (success_after details sp env n) = 0 /\
  resolved (success_after details sp env n) = [] /\
  alerts (effects (success_after details sp env n))
  = [Alert "Error" "No payment session found"] /\
  renderConsultationSuccess (success_ui (effects (success_after details sp env n)))
  = ErrorView "There was an issue processing your payment".
Proof.
  intro Hsp; unfold success_after, mountConsultationSuccess; rewrite Hsp.
  rewrite run_from_idle by reflexivity.
  repeat split; reflexivity.
Qed.

Lemma success_screen_without_session_witness :
  param_truthy (OneParam "") = false /\
  queries (success_after (fun _ => true) (OneParam "") (always (Response paid_data)) 5) = 0.
Proof.
  split; [reflexivity|].
  apply (success_screen_without_session (fun _ => true) (OneParam "")
           (always (Response paid_data)) 5 eq_refl).
Defined.

Lemma checkPaymentReturn_with_session sid sessionId :
  truthy sid = Some sessionId ->
  forall env n,
    consultations_after sid env n =
    (consultations_ui
       {| showPaymentStatus := true; paymentSessionId := sessionId; activeTab := Browse |}
       (effects (run (routine ConsultationsScreen) env n)),
     run (routine ConsultationsScreen) env n).
Proof.
  intros H env n; unfold consultations_after, checkPaymentReturn; rewrite H; reflexivity.
Qed.

Lemma consultations_ui_done ui o dta logs :
  forallb is_log logs = true ->
  showPaymentStatus
    (consultations_ui ui (logs ++ final_effects ConsultationsScreen o dta)) =
  match o with
  | Paid => showPaymentStatus ui
  | _ => false
  end.
Proof.
  intro Hl; unfold consultations_ui.
  rewrite fold_left_app, (logs_consultations_ui logs _ Hl).
  destruct o; reflexivity.
Qed.

(** X4: on the consultations screen, after a return from checkout with a
    session identifier, the processing modal is shown at every point of the
    poll at which no outcome is resolved, it is still shown once [Paid] is
    resolved, until the OK button of the success alert is pressed, and it is
    hidden once [Expired], [TimedOut] or [Failed] is resolved. *)
Theorem processing_modal_follows_poll (sid : option string) (sessionId : string)
    (env : nat -> QueryResult) (n : nat) :
  truthy sid = Some sessionId ->
  (showPaymentStatus (fst (consultations_after sid env n)) = true <->
   resolved (snd (consultations_after sid env n)) = [] \/
   resolved (snd (consultations_after sid env n)) = [Paid]) /\
  showPaymentStatus (pressOk (fst (consultations_after sid env n))) = false /\
  paymentSessionId (fst (consultations_after sid env n)) = sessionId.
Proof.
  intro Hsid; rewrite (checkPaymentReturn_with_session sid sessionId Hsid env n).
  cbn [fst snd].
  destruct (run_shape ConsultationsScreen env n)
    as [a d Ht Hr Hl | o dta logs Ht Hr Hl He Hp].
  - unfold consultations_ui; rewrite (logs_consultations_ui _ _ Hl), Hr.
    repeat split; auto.
  - rewrite He, Hr, (consultations_ui_done _ o dta logs Hl).
    split; [|split; [reflexivity|]].
    + destruct o; cbn; split; intro H; try discriminate; auto;
        destruct H as [H|H]; discriminate.
    + unfold consultations_ui.
      rewrite fold_left_app, (logs_consultations_ui logs _ Hl).
      destruct o; reflexivity.
Qed.

Lemma processing_modal_follows_poll_witness :
  truthy (Some "cs_test_1"%string) = Some "cs_test_1"%string /\
  showPaymentStatus (fst (consultations_after (Some "cs_test_1"%string) paid_on_third 3))
  = true /\
  showPaymentStatus
    (fst (consultations_after (Some "cs_test_1"%string) two_failures_pending_two_failures 4))
  = false.
Proof.
  split; [reflexivity|].
  split.
  - apply (processing_modal_follows_poll (Some "cs_test_1"%string) "cs_test_1"
             paid_on_third 3 eq_refl).
    right; reflexivity.
  - destruct (processing_modal_follows_poll (Some "cs_test_1"%string) "cs_test_1"
                two_failures_pending_two_failures 4 eq_refl) as [[H _] _].
    destruct (showPaymentStatus _); [|reflexivity].
    destruct (H eq_refl) as [H'|H']; discriminate.
Defined.

(** X5: a poll of the consultations screen opens no alert while no outcome
    is resolved and exactly one alert in all, whose title follows the
    outcome: "Payment Successful!" for [Paid], "Payment Expired" for
    [Expired], "Error" for [TimedOut] and [Failed]. *)
Theorem consultations_poll_alerts_once (env : nat -> QueryResult) (n : nat) :
  (resolved (run pollPaymentStatus env n) = [] ->
   alerts (effects (run pollPaymentStatus env n)) = []) /\
  (forall o, resolved (run pollPaymentStatus env n) = [o] ->
     exists title message,
       title = match o with
               | Paid => "Payment Successful!"%string
               | Expired => "Payment Expired"%string
               | TimedOut | Failed => "Error"%string
               end /\
       alerts (effects (run pollPaymentStatus env n)) =
       [if match o with Paid => true | _ => false end
        then AlertWithOk title message else Alert title message]) /\
  length (alerts (effects (poll pollPaymentStatus env))) = 1.
Proof.
  assert (Hdone : forall o dta logs, forallb is_log logs = true ->
            exists title message,
              title = match o with
                      | Paid => "Payment Successful!"%string
                      | Expired => "Payment Expired"%string
                      | TimedOut | Failed => "Error"%string
                      end /\
              alerts (logs ++ final_effects ConsultationsScreen o dta) =
              [if match o with Paid => true | _ => false end
               then AlertWithOk title message else Alert title message]).
  { intros o dta logs Hl; rewrite alerts_app, (logs_alerts logs Hl).
    destruct o; cbn; eauto. }
  split; [|split].
  - intro Hr0.
    destruct (run_shape ConsultationsScreen env n)
      as [a d Ht Hr Hl | o dta logs Ht Hr Hl He Hp].
    + apply logs_alerts; exact Hl.
    + cbn [routine] in Hr; rewrite Hr in Hr0; discriminate.
  - intros o Ho.
    destruct (run_shape ConsultationsScreen env n)
      as [a d Ht Hr Hl | o' dta logs Ht Hr Hl He Hp]; cbn [routine] in *.
    + rewrite Hr in Ho; discriminate.
    + rewrite Hr in Ho; injection Ho as ->.
      rewrite He; apply Hdone; exact Hl.
  - rewrite poll_eq.
    destruct (poll_shape_done ConsultationsScreen env (S maxAttempts) (le_n _))
      as (o & dta & logs & Hr & Hl & He & _); cbn [routine] in *.
    rewrite He.
    destruct (Hdone o dta logs Hl) as (title & message & _ & ->); reflexivity.
Qed.

Lemma consultations_poll_alerts_once_witness :
  resolved (run pollPaymentStatus paid_on_third 2) = [] /\
  alerts (effects (run pollPaymentStatus paid_on_third 2)) = [].
Proof.
  split; [reflexivity|].
  apply (consultations_poll_alerts_once paid_on_third 2); reflexivity.
Defined.

(** X6: a poll of the payment-success screen alerts only when it times out:
    once it has run its course the alerts are the single time-out alert
    after [TimedOut] and none after any other outcome; and the details of
    the consultation are requested at most once, only after [Paid] and only
    when the paid response carries a non-empty [consultation_request_id]. *)
Theorem success_poll_alerts_and_details (details : string -> bool)
    (env : nat -> QueryResult) (n : nat) :
  S maxAttempts <= n ->
  exists o dta,
    resolved (run (verifyPaymentStatus details) env n) = [o] /\
    alerts (effects (run (verifyPaymentStatus details) env n)) =
      match o with
      | TimedOut =>
          [Alert "Error"
             "Payment verification timeout. Please check your consultation history."]
      | _ => []
      end /\
    filter (fun e => match e with GetConsultation _ => true | _ => false end)
           (effects (run (verifyPaymentStatus details) env n)) =
      match o with
      | Paid =>
          match truthy (consultation_request_id dta) with
          | Some id => [GetConsultation id]
          | None => []
          end
      | _ => []
      end /\
    (o = Paid ->
       env (Nat.pred (queries (run (verifyPaymentStatus details) env n))) = Response dta).
Proof.
  intro Hn.
  destruct (poll_shape_done (SuccessScreen details) env n Hn)
    as (o & dta & logs & Hr & Hl & He & Hp); cbn [routine] in *.
  assert (Hg : filter (fun e => match e with GetConsultation _ => true | _ => false end)
                      logs = []).
  { clear He; induction logs as [|e logs IH]; [reflexivity|].
    cbn in Hl; apply andb_prop in Hl; destruct Hl as [He Hl].
    destruct e; try discriminate; cbn; apply IH; exact Hl. }
  exists o, dta; split; [exact Hr|].
  rewrite He, alerts_app, filter_app, (logs_alerts logs Hl), Hg.
  split; [|split].
  - destruct o; try reflexivity.
    cbn [final_effects]; unfold loadDetails.
    destruct (truthy (consultation_request_id dta)) as [id|]; [|reflexivity].
    destruct (details id); reflexivity.
  - destruct o; try reflexivity.
    cbn [final_effects]; unfold loadDetails.
    destruct (truthy (consultation_request_id dta)) as [id|]; [|reflexivity].
    destruct (details id); reflexivity.
  - intro Ho; apply Hp; exact Ho.
Qed.

Lemma success_poll_alerts_and_details_witness :
  S maxAttempts <= 11 /\
  exists o, resolved (run (verifyPaymentStatus (fun _ => false)) (always P) 11) = [o].
Proof.
  split; [budget|].
  destruct (success_poll_alerts_and_details (fun _ => false) (always P) 11 ltac:(budget))
    as (o & _ & Ho & _).
  exists o; exact Ho.
Defined.

(** ** The root-cause list *)

Lemma spread_length l : length (spread l) = length l.
Proof. apply length_map. Qed.

Lemma spread_no_hole l : forallb (fun c => negb (is_hole c)) (spread l) = true.
Proof. induction l as [|[| |s] l IH]; cbn; auto. Qed.

Lemma spread_strings l : spread (strings l) = strings l.
Proof. induction l as [|s l IH]; cbn; [reflexivity | f_equal; exact IH]. Qed.

Lemma elements_dense l :
  forallb (fun c => negb (is_hole c)) l = true -> elements l = length l.
Proof.
  unfold elements; induction l as [|c l IH]; intro H; [reflexivity|].
  cbn in H; apply andb_prop in H; destruct H as [Hc Hl].
  cbn; rewrite Hc; cbn; f_equal; apply IH; exact Hl.
Qed.

Lemma elements_le_length l : elements l <= length l.
Proof. unfold elements; apply filter_length_le. Qed.

Lemma assign_length l i v : length (assign l i v) = Nat.max (length l) (S i).
Proof.
  revert i; induction l as [|c l IH]; intro i.
  - induction i as [|i IHi]; [reflexivity|].
    cbn [assign length]; rewrite IHi; cbn; lia.
  - destruct i as [|i]; cbn [assign length]; [lia|].
    rewrite IH; lia.
Qed.

Lemma assign_nth l i v : nth_error (assign l i v) i = Some (Str v).
Proof.
  revert i; induction l as [|c l IH]; intro i.
  - induction i as [|i IHi]; [reflexivity | exact IHi].
  - destruct i as [|i]; [reflexivity | apply IH].
Qed.

Lemma assign_other l i v j :
  j <> i -> j < length l -> nth_error (assign l i v) j = nth_error l j.
Proof.
  revert i j; induction l as [|c l IH]; intros i j Hne Hj; [cbn in Hj; lia|].
  destruct i as [|i], j as [|j]; cbn; try reflexivity; try lia.
  apply IH; [lia | cbn in Hj; lia].
Qed.

Lemma assign_nil_elements i v : elements (assign [] i v) = 1.
Proof. induction i as [|i IH]; [reflexivity | exact IH]. Qed.

Lemma assign_elements l i v :
  forallb (fun c => negb (is_hole c)) l = true ->
  elements (assign l i v) = if (i <? length l)%nat then length l else S (length l).
Proof.
  revert i; induction l as [|c l IH]; intros i H.
  - rewrite assign_nil_elements; reflexivity.
  - cbn in H; apply andb_prop in H; destruct H as [Hc Hl].
    destruct i as [|i].
    + cbn [assign]; unfold elements; cbn.
      fold (elements l); rewrite (elements_dense l Hl); reflexivity.
    + change (S i <? length (c :: l))%nat with (i <? length l)%nat.
      cbn [assign]; unfold elements; cbn [filter]; rewrite Hc.
      cbn [length]; fold (elements (assign l i v)); rewrite (IH i Hl).
      destruct (i <? length l)%nat; reflexivity.
Qed.

Lemma assign_strings l i v :
  i < length l ->
  assign (strings l) i v = strings (firstn i l ++ v :: skipn (S i) l).
Proof.
  revert i; induction l as [|s l IH]; intros i Hi; [cbn in Hi; lia|].
  destruct i as [|i]; [reflexivity|].
  cbn in Hi; cbn; f_equal; apply IH; lia.
Qed.

Lemma array_filter_no_hole f k l :
  forallb (fun c => negb (is_hole c)) (array_filter f k l) = true.
Proof.
  revert k; induction l as [|c l IH]; intro k; [reflexivity|].
  destruct c; cbn; try apply IH; destruct (f _ k); cbn; auto.
Qed.

(** Removing one index drops at most one element. *)
Lemma array_filter_drop_elements index k l :
  elements l <= S (length (array_filter (fun _ i => negb (i =? index)%nat) k l)).
Proof.
  revert k; induction l as [|c l IH]; intro k; [cbn; lia|].
  assert (Hkeep : forall m, index < m ->
            length (array_filter (fun _ i => negb (i =? index)%nat) m l) = elements l).
  { clear IH; induction l as [|c' l IHl]; intros m Hm; [reflexivity|].
    destruct c'; cbn; unfold elements in *; cbn.
    - apply IHl; lia.
    - replace (m =? index)%nat with false by (symmetry; apply Nat.eqb_neq; lia).
      cbn; f_equal; apply IHl; lia.
    - replace (m =? index)%nat with false by (symmetry; apply Nat.eqb_neq; lia).
      cbn; f_equal; apply IHl; lia. }
  destruct c; cbn [array_filter].
  - unfold elements; cbn; apply IH.
  - unfold elements; cbn [filter is_hole negb length]; fold (elements l).
    destruct (k =? index)%nat eqn:E; cbn [negb].
    + apply Nat.eqb_eq in E; rewrite (Hkeep (S k)) by lia; lia.
    + cbn [length]; specialize (IH (S k)); lia.
  - unfold elements; cbn [filter is_hole negb length]; fold (elements l).
    destruct (k =? index)%nat eqn:E; cbn [negb].
    + apply Nat.eqb_eq in E; rewrite (Hkeep (S k)) by lia; lia.
    + cbn [length]; specialize (IH (S k)); lia.
Qed.

Lemma array_filter_strings index k l :
  array_filter (fun _ i => negb (i =? index)%nat) k (strings l) =
  strings (if (index <? k)%nat then l
           else firstn (index - k) l ++ skipn (S (index - k)) l).
Proof.
  revert k; induction l as [|s l IH]; intro k.
  - cbn [strings map array_filter]; destruct (index <? k)%nat; [reflexivity|].
    rewrite firstn_nil; reflexivity.
  - cbn [strings map array_filter]; fold (strings l); rewrite IH.
    destruct (k =? index)%nat eqn:E.
    + apply Nat.eqb_eq in E; subst k; cbn [negb].
      replace (index <? S index)%nat with true by (symmetry; apply Nat.ltb_lt; lia).
      replace (index <? index)%nat with false by (symmetry; apply Nat.ltb_ge; lia).
      rewrite Nat.sub_diag; reflexivity.
    + apply Nat.eqb_neq in E; cbn [negb].
      destruct (index <? k)%nat eqn:Ek.
      * apply Nat.ltb_lt in Ek.
        replace (index <? S k)%nat with true by (symmetry; apply Nat.ltb_lt; lia).
        reflexivity.
      * apply Nat.ltb_ge in Ek.
        replace (index <? S k)%nat with false by (symmetry; apply Nat.ltb_ge; lia).
        replace (index - k) with (S (index - S k)) by lia.
        reflexivity.
Qed.

Lemma strings_length l : length (strings l) = length l.
Proof. apply length_map. Qed.

(** What every action keeps: there is an element, and a list with holes has
    at least two. *)
Lemma root_cause_step_keeps l a :
  1 <= elements l /\ (elements l < length l -> 2 <= elements l) ->
  1 <= elements (root_cause_step l a) /\
  (elements (root_cause_step l a) < length (root_cause_step l a) ->
   2 <= elements (root_cause_step l a)).
Proof.
  intros [H1 H2].
  pose proof (elements_le_length l) as Hle.
  destruct a as [|index value|index]; cbn [root_cause_step].
  - assert (Hd : forallb (fun c => negb (is_hole c)) (addRootCause l) = true).
    { unfold addRootCause; rewrite forallb_app, spread_no_hole; reflexivity. }
    rewrite (elements_dense _ Hd).
    unfold addRootCause; rewrite length_app, spread_length; cbn; lia.
  - unfold updateRootCause.
    rewrite (assign_elements _ index value (spread_no_hole l)), assign_length, spread_length.
    destruct (index <? length l)%nat eqn:E;
      [apply Nat.ltb_lt in E | apply Nat.ltb_ge in E]; lia.
  - unfold removeRootCause.
    destruct (1 <? length l)%nat eqn:E; [apply Nat.ltb_lt in E | auto].
    rewrite (elements_dense _ (array_filter_no_hole _ 0 l)).
    pose proof (array_filter_drop_elements index 0 l) as Hdrop.
    split; [|lia].
    destruct (Nat.eq_dec (elements l) 1) as [E1|E1]; [|lia].
    assert (elements l < length l) by lia.
    specialize (H2 H); lia.
Qed.

(** X7: the list of root causes is never empty: starting from the single
    empty row, no sequence of additions, updates and removals, with any
    indices at all, leaves the screen without a row. *)
Theorem root_causes_never_empty (acts : list RootCauseAction) :
  fold_left root_cause_step acts rootCauses_initial <> [] /\
  1 <= length (fold_left root_cause_step acts rootCauses_initial).
Proof.
  assert (H : forall l, 1 <= elements l /\ (elements l < length l -> 2 <= elements l) ->
            1 <= elements (fold_left root_cause_step acts l)).
  { induction acts as [|a acts IH]; intros l Hl; [apply Hl|].
    cbn [fold_left]; apply IH, root_cause_step_keeps, Hl. }
  specialize (H rootCauses_initial).
  assert (H1 : 1 <= elements (fold_left root_cause_step acts rootCauses_initial))
    by (apply H; cbn; lia).
  pose proof (elements_le_length (fold_left root_cause_step acts rootCauses_initial)) as Hle.
  split; [|lia].
  intro E; rewrite E in H1; cbn in H1; lia.
Qed.

(** X8: as long as every update and removal names a row that is on the
    screen, the list holds strings only, no hole and no [undefined], and is
    not empty. *)
Theorem root_causes_stay_strings (acts : list RootCauseAction) :
  all_on_screen rootCauses_initial acts = true ->
  exists l, fold_left root_cause_step acts rootCauses_initial = strings l /\ l <> [].
Proof.
  assert (H : forall l, l <> [] -> all_on_screen (strings l) acts = true ->
            exists l', fold_left root_cause_step acts (strings l) = strings l' /\ l' <> []).
  { induction acts as [|a acts IH]; intros l Hne Hon; [exists l; auto|].
    cbn [all_on_screen] in Hon; apply andb_prop in Hon; destruct Hon as [Ha Hrest].
    cbn [fold_left].
    assert (Hstep : exists l1, root_cause_step (strings l) a = strings l1 /\ l1 <> []).
    { destruct a as [|index value|index]; cbn [root_cause_step on_screen] in *.
      - exists (l ++ [""%string]); split.
        + unfold addRootCause, strings; rewrite spread_strings, map_app; reflexivity.
        + destruct l; discriminate.
      - apply Nat.ltb_lt in Ha; rewrite strings_length in Ha.
        exists (firstn index l ++ value :: skipn (S index) l); split.
        + unfold updateRootCause; rewrite spread_strings; apply assign_strings; exact Ha.
        + destruct (firstn index l); discriminate.
      - apply Nat.ltb_lt in Ha; rewrite strings_length in Ha.
        unfold removeRootCause; rewrite strings_length.
        destruct (1 <? length l)%nat eqn:E; [apply Nat.ltb_lt in E | exists l; auto].
        rewrite array_filter_strings; cbn [Nat.ltb Nat.leb]; rewrite Nat.sub_0_r.
        exists (firstn index l ++ skipn (S index) l); split; [reflexivity|].
        intro Hnil; apply (f_equal (@length string)) in Hnil.
        rewrite length_app, length_firstn, length_skipn in Hnil; cbn in Hnil; lia. }
    destruct Hstep as (l1 & Hs & Hne1).
    rewrite Hs in Hrest |- *; apply IH; assumption. }
  intro Hon; apply (H [""%string]); [discriminate | exact Hon].
Qed.

Lemma root_causes_stay_strings_witness :
  all_on_screen rootCauses_initial
    [UpdateRootCause 0 "seal wear"; AddRootCause; UpdateRootCause 1 "late audit";
     RemoveRootCause 0] = true /\
  exists l,
    fold_left root_cause_step
      [UpdateRootCause 0 "seal wear"; AddRootCause; UpdateRootCause 1 "late audit";
       RemoveRootCause 0] rootCauses_initial = strings l /\ l <> [].
Proof.
  split; [reflexivity|].
  apply (root_causes_stay_strings
           [UpdateRootCause 0 "seal wear"; AddRootCause; UpdateRootCause 1 "late audit";
            RemoveRootCause 0]); reflexivity.
Defined.

(** X9: after [updateRootCause(index, value)] the row [index] holds [value],
    whatever [index] is; the list has grown to [index + 1] rows if it was
    shorter and has kept its length otherwise; and every other row that was
    there is as in the copy of the old list. *)
Theorem updateRootCause_lookup (rootCauses : list Cell) (index : nat) (value : string) :
  nth_error (updateRootCause rootCauses index value) index = Some (Str value) /\
  length (updateRootCause rootCauses index value) = Nat.max (length rootCauses) (S index) /\
  forall j, j <> index -> j < length rootCauses ->
    nth_error (updateRootCause rootCauses index value) j = nth_error (spread rootCauses) j.
Proof.
  unfold updateRootCause; split; [apply assign_nth | split].
  - rewrite assign_length, spread_length; reflexivity.
  - intros j Hne Hj; apply assign_other; [exact Hne | rewrite spread_length; exact Hj].
Qed.

(** X10: [removeRootCause(index)] on a list of strings: the only row of a
    one-row list is never removed; on a longer list the row [index] is
    taken out and the others keep their order, so the list is one shorter
    when [index] names a row and unchanged when it does not. *)
Theorem removeRootCause_strings (l : list string) (index : nat) :
  (length l <= 1 -> removeRootCause (strings l) index = strings l) /\
  (1 < length l ->
     removeRootCause (strings l) index = strings (firstn index l ++ skipn (S index) l)) /\
  (1 < length l -> index < length l ->
     length (removeRootCause (strings l) index) = length l - 1) /\
  (length l <= index -> removeRootCause (strings l) index = strings l).
Proof.
  assert (Hlong : 1 < length l ->
            removeRootCause (strings l) index =
            strings (firstn index l ++ skipn (S index) l)).
  { intro H; unfold removeRootCause; rewrite strings_length.
    apply Nat.ltb_lt in H; rewrite H.
    rewrite array_filter_strings; cbn [Nat.ltb Nat.leb]; rewrite Nat.sub_0_r; reflexivity. }
  split; [|split; [exact Hlong | split]].
  - intro H; unfold removeRootCause; rewrite strings_length.
    replace (1 <? length l)%nat with false by (symmetry; apply Nat.ltb_ge; exact H).
    reflexivity.
  - intros H Hi; rewrite (Hlong H), strings_length, length_app, length_firstn, length_skipn.
    lia.
  - intro Hi.
    destruct (le_lt_dec (length l) 1) as [H|H].
    + unfold removeRootCause; rewrite strings_length.
      replace (1 <? length l)%nat with false by (symmetry; apply Nat.ltb_ge; exact H).
      reflexivity.
    + rewrite (Hlong H), firstn_all2, skipn_all2, app_nil_r by lia; reflexivity.
Qed.

Lemma removeRootCause_strings_witness :
  removeRootCause (strings ["a"%string]) 0 = strings ["a"%string] /\
  removeRootCause (strings ["a"; "b"; "c"]%string) 1 = strings ["a"; "c"]%string.
Proof.
  split.
  - destruct (removeRootCause_strings ["a"%string] 0) as (Hone & _).
    apply Hone; cbn; lia.
  - destruct (removeRootCause_strings ["a"; "b"; "c"]%string 1) as (_ & Hlong & _).
    apply Hlong; cbn; lia.
Defined.

(** X11: adding a row and removing it again gives back a list of strings
    that was not empty. *)
Theorem add_then_remove_root_cause (l : list string) :
  l <> [] ->
  removeRootCause (addRootCause (strings l)) (length l) = strings l.
Proof.
  intro Hne.
  assert (Hadd : addRootCause (strings l) = strings (l ++ [""%string])).
  { unfold addRootCause, strings; rewrite spread_strings, map_app; reflexivity. }
  rewrite Hadd.
  destruct (removeRootCause_strings (l ++ [""%string]) (length l)) as (_ & Hlong & _).
  rewrite Hlong.
  - rewrite firstn_app, firstn_all, Nat.sub_diag; cbn [firstn].
    rewrite skipn_all2 by (rewrite length_app; cbn; lia).
    rewrite !app_nil_r; reflexivity.
  - rewrite length_app; cbn; destruct l; [contradiction | cbn; lia].
Qed.

Lemma add_then_remove_root_cause_witness :
  ["x"%string] <> [] /\
  removeRootCause (addRootCause (strings ["x"%string])) 1 = strings ["x"%string].
Proof.
  split; [discriminate|].
  apply (add_then_remove_root_cause ["x"%string]); discriminate.
Defined.

(** ** The requests of the investigation screen *)

Lemma truthy_some v x : truthy v = Some x -> v = Some x /\ x <> ""%string.
Proof.
  destruct v as [[|c s]|]; cbn; try discriminate.
  intro H; injection H as <-; split; [reflexivity | discriminate].
Qed.

(** X12: [getUserId] never returns the empty string, and with a working
    storage it is stable: a second call, at any later time, returns the
    identifier of the first and leaves the stored items as the first call
    left them. *)
Theorem getUserId_stable (dev dev' : Device) (items : Items) :
  fst (getUserId dev items) <> ""%string /\
  (get_ok dev = true -> set_ok dev = true -> get_ok dev' = true ->
   getUserId dev' (snd (getUserId dev items)) = getUserId dev items).
Proof.
  split.
  - unfold getUserId.
    destruct (get_ok dev); [|discriminate].
    destruct (truthy (items "pharma_user_id")) as [u|] eqn:E.
    + apply truthy_some in E; destruct E as [_ Hu]; exact Hu.
    + destruct (set_ok dev); discriminate.
  - intros Hg Hs Hg'; unfold getUserId; rewrite Hg, Hs, Hg'.
    destruct (truthy (items "pharma_user_id")) as [u|] eqn:E; cbn [fst snd].
    + rewrite E; reflexivity.
    + unfold put_item at 1; rewrite String.eqb_refl; reflexivity.
Qed.

Lemma getUserId_stable_witness :
  get_ok (mkDevice "1700000000000" "k3j9x1abc" true true) = true /\
  getUserId (mkDevice "1700000009999" "zzzzzzzzz" true false)
    (snd (getUserId (mkDevice "1700000000000" "k3j9x1abc" true true) no_items))
  = getUserId (mkDevice "1700000000000" "k3j9x1abc" true true) no_items.
Proof.
  split; [reflexivity|].
  apply (getUserId_stable (mkDevice "1700000000000" "k3j9x1abc" true true)
           (mkDevice "1700000009999" "zzzzzzzzz" true false) no_items); reflexivity.
Defined.

Lemma validRootCauses_strings trim l :
  validRootCauses trim (strings l) = Some (filter (fun s => negb (blank trim s)) l).
Proof.
  induction l as [|s l IH]; [reflexivity|].
  cbn [strings map validRootCauses filter]; fold (strings l); rewrite IH.
  destruct (blank trim s); reflexivity.
Qed.

Lemma loading_after_app b fx1 fx2 :
  loading_after b (fx1 ++ fx2) = loading_after (loading_after b fx1) fx2.
Proof. apply fold_left_app. Qed.

(** The two ways a generator can go, once its request is formed. *)
Lemma request_effects_shape (b : bool) req (ok_fx : string -> list InvEffect)
    log msg post :
  is_post req = true ->
  (forall data, filter is_post (ok_fx data) = []) ->
  let fx := [InvSetLoading true; req] ++
            match post with
            | Posted data => ok_fx data
            | PostRejected => [InvConsoleError log; InvAlert "Error" msg]
            end ++ [InvSetLoading false] in
  filter is_post fx = [req] /\ loading_after b fx = false /\
  last fx (InvSetLoading true) = InvSetLoading false.
Proof.
  intros Hreq Hok fx; subst fx.
  repeat split.
  - cbn [app filter is_post]; rewrite Hreq, filter_app; cbn.
    destruct post; [rewrite Hok|]; reflexivity.
  - rewrite !loading_after_app; reflexivity.
  - rewrite app_assoc, last_last; reflexivity.
Qed.

(** X13: pressing the generate button, on any tab, either alerts once and
    touches nothing (no request, no change of the loading flag or of the
    storage), or sets the loading flag, posts exactly one request and ends
    by clearing the loading flag, whether the request is fulfilled or
    rejected.  The first happens exactly when validation fails: a blank
    problem statement, or on the CAPA tab no root cause that is not
    blank. *)
Theorem generate_posts_once_and_clears_loading (trim : string -> string)
    (dev : Device) (post : PostResult) (st : InvestigationState) (items : Items)
    (fx : list InvEffect) (items' : Items) (b : bool) :
  pressGenerate trim dev post st items = Some (fx, items') ->
  (blank trim (problemStatement st) = true \/
   (activeAnalysis st = Capa /\ validRootCauses trim (rootCauses st) = Some []) ->
   (exists message, fx = [InvAlert "Error" message]) /\
   items' = items /\ loading_after b fx = b) /\
  (~ (blank trim (problemStatement st) = true \/
      (activeAnalysis st = Capa /\ validRootCauses trim (rootCauses st) = Some [])) ->
   (exists req, is_post req = true /\ filter is_post fx = [req]) /\
   hd_error fx = Some (InvSetLoading true) /\
   last fx (InvSetLoading true) = InvSetLoading false /\
   loading_after b fx = false /\
   items' = snd (getUserId dev items)).
Proof.
  unfold pressGenerate, generate5WhyAnalysis, generateFishboneAnalysis,
    generateCAPAAnalysis.
  intro H.
  destruct (blank trim (problemStatement st)) eqn:Eb.
  - assert (Hfx : fx = [InvAlert "Error" "Please enter a problem statement"] /\
                  items' = items)
      by (destruct (activeAnalysis st); injection H as <- <-; auto).
    destruct Hfx as [-> ->].
    split; [intros _; eauto | intro Hn; exfalso; apply Hn; auto].
  - destruct (getUserId dev items) as [userId items1] eqn:Eu; cbn [snd].
    destruct (activeAnalysis st) eqn:Ea.
    + injection H as <- <-.
      split; [intros [Hb | [Hc _]]; discriminate | intros _].
      destruct (request_effects_shape b
                  (InvPost "/api/investigation/five-why" (problemStatement st) None
                     userId (selectedRegulatory st))
                  (fun data => [InvSetResults FiveWhy data; InvSetShowResults true])
                  "5-Why analysis error:"
                  "Failed to generate 5-Why analysis. Please try again." post
                  eq_refl (fun _ => eq_refl))
        as (Hp & Hl & Hlast).
      split; [eexists; split; [|exact Hp]; reflexivity|].
      split; [reflexivity|]. split; [exact Hlast|]. split; [exact Hl | reflexivity].
    + injection H as <- <-.
      split; [intros [Hb | [Hc _]]; discriminate | intros _].
      destruct (request_effects_shape b
                  (InvPost "/api/investigation/fishbone" (problemStatement st) None
                     userId (selectedRegulatory st))
                  (fun data => [InvSetResults Fishbone data; InvSetShowResults true])
                  "Fishbone analysis error:"
                  "Failed to generate Fishbone analysis. Please try again." post
                  eq_refl (fun _ => eq_refl))
        as (Hp & Hl & Hlast).
      split; [eexists; split; [|exact Hp]; reflexivity|].
      split; [reflexivity|]. split; [exact Hlast|]. split; [exact Hl | reflexivity].
    + destruct (validRootCauses trim (rootCauses st)) as [[|c causes]|] eqn:Ev;
        [| |discriminate].
      * injection H as <- <-.
        split; [intros _; eauto | intro Hn; exfalso; apply Hn; auto].
      * injection H as <- <-.
        split; [intros [Hb | [_ Hc]]; discriminate | intros _].
        destruct (request_effects_shape b
                    (InvPost "/api/investigation/capa" (problemStatement st)
                       (Some (c :: causes)) userId (selectedRegulatory st))
                    (fun data => [InvSetResults Capa data; InvSetShowResults true])
                    "CAPA analysis error:"
                    "Failed to generate CAPA analysis. Please try again." post
                    eq_refl (fun _ => eq_refl))
          as (Hp & Hl & Hlast).
        split; [eexists; split; [|exact Hp]; reflexivity|].
        split; [reflexivity|]. split; [exact Hlast|]. split; [exact Hl | reflexivity].
Qed.

Lemma generate_posts_once_and_clears_loading_witness :
  loading_after true
    (match pressGenerate trim_spaces sample_device PostRejected sample_capa no_items with
     | Some (fx, _) => fx
     | None => []
     end) = false.
Proof.
  destruct (pressGenerate trim_spaces sample_device PostRejected sample_capa no_items)
    as [[fx items']|] eqn:E.
  - destruct (generate_posts_once_and_clears_loading trim_spaces sample_device
                PostRejected sample_capa no_items fx items' true E) as [_ H].
    apply H.
    intros [Hb | [_ Hv]]; vm_compute in *; discriminate.
  - vm_compute in E; discriminate.
Defined.

(** X14: [generateCAPAAnalysis] on a list of strings never throws; it posts
    a request exactly when the problem statement is not blank and some root
    cause is not blank; and the request then carries the problem statement
    as typed, the root causes that are not blank, in their order on the
    screen, the identifier given by [getUserId] and the selected regulatory
    context. *)
Theorem capa_request_payload (trim : string -> string) (dev : Device)
    (post : PostResult) (st : InvestigationState) (items : Items) (l : list string) :
  rootCauses st = strings l ->
  exists fx items',
    generateCAPAAnalysis trim dev post st items = Some (fx, items') /\
    ((exists req, In req fx /\ is_post req = true) <->
     (blank trim (problemStatement st) = false /\
      exists s, In s l /\ blank trim s = false)) /\
    (forall ep ps rc uid reg, In (InvPost ep ps rc uid reg) fx ->
       ep = "/api/investigation/capa"%string /\
       ps = problemStatement st /\
       rc = Some (filter (fun s => negb (blank trim s)) l) /\
       uid = fst (getUserId dev items) /\
       reg = selectedRegulatory st).
Proof.
  intro Hrc; unfold generateCAPAAnalysis.
  rewrite Hrc, validRootCauses_strings.
  destruct (blank trim (problemStatement st)) eqn:Eb.
  - eexists _, _; split; [reflexivity|]; split.
    + split.
      * intros (req & [<-|[]] & Hp); discriminate.
      * intros [Hf _]; discriminate.
    + intros ep ps rc uid reg [H|[]]; discriminate.
  - destruct (filter (fun s => negb (blank trim s)) l) as [|c causes] eqn:Ef.
    + eexists _, _; split; [reflexivity|]; split.
      * split.
        -- intros (req & [<-|[]] & Hp); discriminate.
        -- intros (_ & s & Hs & Hbs).
           assert (Hin : In s (filter (fun s => negb (blank trim s)) l))
             by (apply filter_In; rewrite Hbs; auto).
           rewrite Ef in Hin; contradiction.
      * intros ep ps rc uid reg [H|[]]; discriminate.
    + destruct (getUserId dev items) as [userId items1] eqn:Eu; cbn [fst].
      eexists _, _; split; [reflexivity|]; split.
      * split.
        -- intros _; split; [reflexivity|].
           assert (Hin : In c (filter (fun s => negb (blank trim s)) l))
             by (rewrite Ef; left; reflexivity).
           apply filter_In in Hin; destruct Hin as [Hc Hb].
           exists c; split; [exact Hc|].
           destruct (blank trim c); [discriminate | reflexivity].
        -- intros _; eexists; split; [right; left; reflexivity | reflexivity].
      * intros ep ps rc uid reg Hin.
        destruct post; cbn in Hin;
          repeat (destruct Hin as [Hin|Hin]; try discriminate);
          try contradiction;
          injection Hin as <- <- <- <- <-; auto.
Qed.

Lemma capa_request_payload_witness :
  rootCauses sample_capa = strings ["  "; "worn punch"; ""; "low moisture"]%string /\
  exists fx items',
    generateCAPAAnalysis trim_spaces sample_device (Posted "{}") sample_capa no_items
    = Some (fx, items') /\
    forall ep ps rc uid reg, In (InvPost ep ps rc uid reg) fx ->
      rc = Some ["worn punch"; "low moisture"]%string.
Proof.
  split; [reflexivity|].
  destruct (capa_request_payload trim_spaces sample_device (Posted "{}") sample_capa
              no_items ["  "; "worn punch"; ""; "low moisture"]%string eq_refl)
    as (fx & items' & Hrun & _ & Hload).
  exists fx, items'; split; [exact Hrun|].
  intros ep ps rc uid reg Hin.
  destruct (Hload ep ps rc uid reg Hin) as (_ & _ & Hrc & _); exact Hrc.
Defined.

Lemma validRootCauses_undefined trim l :
  In Undefined l -> validRootCauses trim l = None.
Proof.
  induction l as [|c l IH]; intro H; [contradiction|].
  destruct H as [-> | H]; [reflexivity|].
  destruct c as [| |s]; cbn [validRootCauses]; [apply IH; exact H | reflexivity |].
  rewrite (IH H); destruct (blank trim s); reflexivity.
Qed.

(** X15: when the list of root causes holds an [undefined] element, as it
    does after an update beyond the last row followed by a copy of the
    list, [generateCAPAAnalysis] with a problem statement that is not blank
    throws out of the filter, before the loading flag is set or anything is
    requested. *)
Theorem capa_throws_on_undefined (trim : string -> string) (dev : Device)
    (post : PostResult) (st : InvestigationState) (items : Items) :
  (In Undefined (rootCauses st) -> blank trim (problemStatement st) = false ->
   generateCAPAAnalysis trim dev post st items = None) /\
  (forall l index value, length l < index ->
     In Undefined (addRootCause (updateRootCause (strings l) index value))).
Proof.
  split.
  - intros Hin Hb; unfold generateCAPAAnalysis.
    rewrite Hb, (validRootCauses_undefined trim _ Hin); reflexivity.
  - intros l index value Hlt.
    unfold addRootCause, updateRootCause; rewrite spread_strings.
    apply in_or_app; left.
    assert (H : forall l i, length l < i -> In Hole (assign (strings l) i value)).
    { clear; induction l as [|s l IH]; intros i Hi.
      - destruct i as [|i]; [cbn in Hi; lia | left; reflexivity].
      - destruct i as [|i]; [cbn in Hi; lia|].
        right; apply IH; cbn in Hi; lia. }
    specialize (H l index Hlt).
    unfold spread; apply in_map_iff; exists Hole; split; [reflexivity | exact H].
Qed.

Lemma capa_throws_on_undefined_witness :
  generateCAPAAnalysis trim_spaces sample_device PostRejected
    {| activeAnalysis := Capa; problemStatement := "Tablets chipped";
       selectedRegulatory := "GMP";
       rootCauses := addRootCause (updateRootCause rootCauses_initial 2 "worn punch") |}
    no_items = None.
Proof.
  destruct (capa_throws_on_undefined trim_spaces sample_device PostRejected
              {| activeAnalysis := Capa; problemStatement := "Tablets chipped";
                 selectedRegulatory := "GMP";
                 rootCauses :=
                   addRootCause (updateRootCause rootCauses_initial 2 "worn punch") |}
              no_items) as [Hthrow Hundef].
  apply Hthrow; [|reflexivity].
  apply (Hundef [""%string] 2 "worn punch"); cbn; lia.
Defined.

(** ** Sending a chat message *)




(** X17: a call of [sendMessage] that passes its guard (text to send not
    empty, not loading) only appends to the conversation: the user's
    message, carrying the text that was sent, followed by the assistant's
    reply when the request is fulfilled and by nothing when it is rejected.
    Either way it posts exactly one request, carrying that text, empties
    the input and ends with the loading flag cleared; on rejection it
    alerts and leaves the suggestions as they were.  A call that does not
    pass the guard changes nothing. *)
Theorem sendMessage_appends (trim : string -> string) (at_send at_reply : Moment)
    (reply : ChatReply) (messageText : option string) (st : ChatState) :
  (textToSend trim messageText st = ""%string \/ chat_loading st = true ->
   sendMessage trim at_send at_reply reply messageText st = (st, [])) /\
  (textToSend trim messageText st <> ""%string -> chat_loading st = false ->
   let st' := fst (sendMessage trim at_send at_reply reply messageText st) in
   let fx := snd (sendMessage trim at_send at_reply reply messageText st) in
   exists user,
     msg_message user = textToSend trim messageText st /\
     msg_sender user = FromUser /\
     msg_id user = millis at_send /\
     messages st' =
       messages st ++ user ::
       match reply with
       | Replied response _ =>
           [{| msg_id := (millis at_reply + 1)%Z; msg_message := response;
               msg_sender := FromAssistant; msg_timestamp := iso at_reply;
               msg_regulatory_context := chat_selectedRegulatory st;
               msg_process_type := truthy (selectedProcess st) |}]
       | ReplyRejected => []
       end /\
     chat_loading st' = false /\ inputText st' = ""%string /\
     filter is_chat_post fx =
       [ChatPost (textToSend trim messageText st) (chat_sessionId st)
          (chat_selectedRegulatory st) (selectedProcess st)] /\
     match reply with
     | Replied _ reply_suggestions =>
         suggestions st' = match reply_suggestions with Some l => l | None => [] end
     | ReplyRejected =>
         suggestions st' = suggestions st /\
         In (ChatAlert "Error" "Failed to get AI response. Please try again.") fx
     end).
Proof.
  split.
  - intro H; unfold sendMessage, sendMessage_begin.
    destruct H as [-> | ->]; [reflexivity | rewrite orb_true_r; reflexivity].
  - intros Ht Hl; unfold sendMessage, sendMessage_begin.
    apply String.eqb_neq in Ht; rewrite Ht, Hl; cbn [orb].
    exists {| msg_id := millis at_send; msg_message := textToSend trim messageText st;
              msg_sender := FromUser; msg_timestamp := iso at_send;
              msg_regulatory_context := chat_selectedRegulatory st;
              msg_process_type := truthy (selectedProcess st) |}.
    destruct reply as [response reply_suggestions|];
      cbn [sendMessage_end fst snd messages chat_loading inputText suggestions
           msg_message msg_sender msg_id chat_selectedRegulatory selectedProcess];
      rewrite <- ?app_assoc; repeat split; try reflexivity.
    right; right; right; left; reflexivity.
Qed.

Lemma sendMessage_appends_witness :
  textToSend trim_spaces None sample_chat
  = "How do I validate a cleaning process?"%string /\
  length (messages (fst (sendMessage trim_spaces
                           (mkMoment 1700000000123 "2023-11-14T22:13:20.123Z")
                           (mkMoment 1700000004000 "2023-11-14T22:13:24.000Z")
                           (Replied "Start from a risk assessment." None)
                           None sample_chat))) = 2.
Proof.
  split; [reflexivity|].
  destruct (sendMessage_appends trim_spaces
              (mkMoment 1700000000123 "2023-11-14T22:13:20.123Z")
              (mkMoment 1700000004000 "2023-11-14T22:13:24.000Z")
              (Replied "Start from a risk assessment." None) None sample_chat)
    as [_ H].
  destruct (H ltac:(discriminate) eq_refl) as (user & _ & _ & _ & Hm & _).
  rewrite Hm; reflexivity.
Defined.

(** ** Booking a consultation *)

Lemma empty_false s : empty s = false <-> s <> ""%string.
Proof. unfold empty; apply String.eqb_neq. Qed.

Lemma booking_ready_iff st :
  booking_ready st = true <->
  (selectedConsultant st <> None /\ selectedPackage st <> ""%string /\
   title (bookingForm st) <> ""%string /\ description (bookingForm st) <> ""%string /\
   contact_email (bookingForm st) <> ""%string /\
   preferred_date (bookingForm st) <> ""%string /\
   preferred_time (bookingForm st) <> ""%string).
Proof.
  unfold booking_ready; rewrite <- !empty_false.
  destruct (selectedConsultant st) as [c|].
  - rewrite !andb_true_iff, !negb_true_iff; intuition discriminate.
  - split; [discriminate | intros [H _]; contradiction].
Qed.

(** The effects of a booking that passes the checks. *)
Lemma handleBookConsultation_ready reply st :
  booking_ready st = true ->
  exists consultant_id,
    selectedConsultant st = Some consultant_id /\
    handleBookConsultation reply st =
    [BookSetLoading true; BookPost consultant_id (selectedPackage st) (bookingForm st)] ++
    match reply with
    | Booked checkout_url =>
        match truthy checkout_url with
        | Some url => [BookOpenURL url; BookSetShowBookingModal false]
        | None => [BookAlert "Error" "Failed to create payment session."]
        end
    | BookingRejected =>
        [BookConsoleError "Booking error:";
         BookAlert "Error" "Failed to book consultation. Please try again."]
    end ++ [BookSetLoading false].
Proof.
  unfold booking_ready, handleBookConsultation.
  destruct (selectedConsultant st) as [c|]; [|discriminate].
  rewrite !andb_true_iff, !negb_true_iff.
  intros [[[[[Ha Hb] Hc] Hd] He] Hf]; rewrite Ha, Hb, Hc, Hd, He, Hf; cbn [orb].
  exists c; split; reflexivity.
Qed.

(** The effects of a booking that fails a check. *)
Lemma handleBookConsultation_not_ready reply st :
  booking_ready st = false ->
  exists message, handleBookConsultation reply st = [BookAlert "Error" message].
Proof.
  unfold booking_ready, handleBookConsultation.
  destruct (selectedConsultant st) as [c|]; [|intros _; eexists; reflexivity].
  repeat match goal with
         | |- context [empty ?x] =>
             destruct (empty x); [intros _; eexists; reflexivity|]
         end.
  cbn; discriminate.
Qed.

(** X18: [handleBookConsultation] posts a booking exactly when a consultant
    and a package are selected and the title, the description, the contact
    e-mail, the preferred date and the preferred time are all non-empty; the
    company name and the phone number may be empty.  The request then
    carries the identifier of the selected consultant, the selected package
    and the form as it is.  Otherwise the only effect is one alert: nothing
    is sent and the loading flag is not touched. *)
Theorem booking_posted_iff_valid (reply : BookingReply) (st : BookingState) :
  ((exists req, In req (handleBookConsultation reply st) /\ is_book_post req = true) <->
   (selectedConsultant st <> None /\ selectedPackage st <> ""%string /\
    title (bookingForm st) <> ""%string /\ description (bookingForm st) <> ""%string /\
    contact_email (bookingForm st) <> ""%string /\
    preferred_date (bookingForm st) <> ""%string /\
    preferred_time (bookingForm st) <> ""%string)) /\
  (forall consultant_id package_id form,
     In (BookPost consultant_id package_id form) (handleBookConsultation reply st) ->
     selectedConsultant st = Some consultant_id /\ package_id = selectedPackage st /\
     form = bookingForm st) /\
  ((forall req, In req (handleBookConsultation reply st) -> is_book_post req = false) ->
   exists message, handleBookConsultation reply st = [BookAlert "Error" message]).
Proof.
  rewrite <- booking_ready_iff.
  destruct (booking_ready st) eqn:Er.
  - destruct (handleBookConsultation_ready reply st Er) as (c & Hc & ->).
    split; [|split].
    + split; [reflexivity|].
      intros _; eexists; split; [right; left; reflexivity | reflexivity].
    + intros cid pid form Hin.
      destruct reply as [u|]; [destruct (truthy u)|]; cbn in Hin;
        repeat (destruct Hin as [Hin|Hin]; try discriminate);
        try contradiction; injection Hin as <- <- <-; auto.
    + intro Hno; specialize (Hno _ (or_intror (or_introl eq_refl))); discriminate.
  - destruct (handleBookConsultation_not_ready reply st Er) as (msg & ->).
    split; [|split].
    + split; [|discriminate].
      intros (req & [<-|[]] & Hp); discriminate.
    + intros cid pid form [H|[]]; discriminate.
    + intros _; eauto.
Qed.

(** X19: however a booking goes, the checkout page is opened exactly when
    the checks pass and the reply carries a non-empty [checkout_url]; the
    booking modal is closed then and only then; and there is exactly one
    alert in every other case and none in that one.  Whenever the loading
    flag is set it is cleared again by the last effect. *)
Theorem booking_opens_checkout_or_alerts (reply : BookingReply) (st : BookingState) :
  (forall url, In (BookOpenURL url) (handleBookConsultation reply st) <->
     booking_ready st = true /\
     exists checkout_url, reply = Booked checkout_url /\ truthy checkout_url = Some url) /\
  (In (BookSetShowBookingModal false) (handleBookConsultation reply st) <->
   exists url, In (BookOpenURL url) (handleBookConsultation reply st)) /\
  length (filter is_book_alert (handleBookConsultation reply st)) +
  length (filter is_open_url (handleBookConsultation reply st)) = 1 /\
  (In (BookSetLoading true) (handleBookConsultation reply st) ->
   last (handleBookConsultation reply st) (BookSetLoading true) = BookSetLoading false).
Proof.
  destruct (booking_ready st) eqn:Er.
  - destruct (handleBookConsultation_ready reply st Er) as (c & Hc & ->).
    destruct reply as [u|]; [destruct (truthy u) as [url0|] eqn:Eu|]; cbn.
    + split; [|split; [|split]]; auto.
      * intro url; split.
        -- intros [H|[H|[H|[H|[H|[]]]]]]; try discriminate.
           injection H as <-; split; [reflexivity|]; eauto.
        -- intros (_ & u' & Hu' & Ht); injection Hu' as <-.
           rewrite Eu in Ht; injection Ht as <-; auto.
      * split; [intros _; exists url0; auto | intros _; auto 6].
    + split; [|split; [|split]]; auto.
      * intro url; split.
        -- intros [H|[H|[H|[H|[]]]]]; discriminate.
        -- intros (_ & u' & Hu' & Ht); injection Hu' as <-.
           rewrite Eu in Ht; discriminate.
      * split.
        -- intros [H|[H|[H|[H|[]]]]]; discriminate.
        -- intros (url & [H|[H|[H|[H|[]]]]]); discriminate.
    + split; [|split; [|split]]; auto.
      * intro url; split.
        -- intros [H|[H|[H|[H|[H|[]]]]]]; discriminate.
        -- intros (_ & u' & Hu' & _); discriminate.
      * split.
        -- intros [H|[H|[H|[H|[H|[]]]]]]; discriminate.
        -- intros (url & [H|[H|[H|[H|[H|[]]]]]]); discriminate.
  - destruct (handleBookConsultation_not_ready reply st Er) as (msg & ->); cbn.
    split; [|split; [|split]]; auto.
    + intro url; split; [intros [H|[]]; discriminate | intros [H _]; discriminate].
    + split; [intros [H|[]]; discriminate | intros (url & [H|[]]); discriminate].
    + intros [H|[]]; discriminate.
Qed.

Lemma booking_opens_checkout_or_alerts_witness :
  In (BookSetLoading true)
     (handleBookConsultation (Booked (Some "https://checkout.example/s1"%string))
        sample_booking) /\
  last (handleBookConsultation (Booked (Some "https://checkout.example/s1"%string))
          sample_booking) (BookSetLoading true) = BookSetLoading false.
Proof.
  split; [left; reflexivity|].
  destruct (booking_opens_checkout_or_alerts
              (Booked (Some "https://checkout.example/s1"%string)) sample_booking)
    as (_ & _ & _ & H).
  apply H; left; reflexivity.
Defined.

(** ** The expertise chips *)

(** X20: a consultant card shows at most four chips: every area when there
    are at most three, otherwise the first three areas in their order and
    one chip counting the others, so that the areas shown and the number on
    that chip add up to the number of areas. *)
Theorem expertise_chips_summary (areas : list string) :
  length (renderExpertiseChips areas) = Nat.min (length areas) 4 /\
  (length areas <= 3 -> renderExpertiseChips areas = map AreaChip areas) /\
  (3 < length areas ->
   exists a b c rest,
     areas = a :: b :: c :: rest /\
     renderExpertiseChips areas =
       [AreaChip a; AreaChip b; AreaChip c; MoreChip (length rest)] /\
     3 + length rest = length areas).
Proof.
  unfold renderExpertiseChips.
  destruct areas as [|a [|b [|c [|d rest]]]].
  1-4: split; [reflexivity | split; [intros _; reflexivity | cbn; intro H; lia]].
  split; [cbn; lia | split; [cbn; intro H; lia|]].
  intros _; exists a, b, c, (d :: rest); repeat split.
Qed.

Lemma expertise_chips_summary_witness :
  renderExpertiseChips ["GMP"; "Validation"; "Sterility"; "Audits"; "CAPA"]%string =
  [AreaChip "GMP"; AreaChip "Validation"; AreaChip "Sterility"; MoreChip 2].
Proof.
  destruct (expertise_chips_summary
              ["GMP"; "Validation"; "Sterility"; "Audits"; "CAPA"]%string)
    as (_ & _ & H).
  destruct (H ltac:(cbn; lia)) as (a & b & c & rest & Ha & Hr & _).
  injection Ha as <- <- <- <-; exact Hr.
Defined.

(** ** The history request *)

(** X21: the consultations screen asks for the history of the user whose
    identifier is in the storage: after a [getUserId] that met a working
    storage, [loadConsultationHistory] requests the history of exactly the
    identifier that [getUserId] returned; when no identifier is stored, or
    the stored one is empty, it requests nothing and sets nothing. *)
Theorem history_requested_for_stored_user (dev : Device) (reply : PostResult)
    (items : Items) :
  (get_ok dev = true -> set_ok dev = true ->
   exists rest,
     loadConsultationHistory true reply (snd (getUserId dev items)) =
     HistoryGet (fst (getUserId dev items)) :: rest) /\
  (truthy (items "pharma_user_id") = None ->
   loadConsultationHistory true reply items = []).
Proof.
  split.
  - intros Hg Hs; unfold loadConsultationHistory, getUserId; rewrite Hg, Hs.
    destruct (truthy (items "pharma_user_id")) as [u|] eqn:E; cbn [fst snd].
    + rewrite E; eauto.
    + unfold put_item; rewrite String.eqb_refl; cbn [truthy append]; eauto.
  - intro H; unfold loadConsultationHistory; rewrite H; reflexivity.
Qed.

Lemma history_requested_for_stored_user_witness :
  get_ok sample_device = true /\
  exists rest,
    loadConsultationHistory true (Posted "[]") (snd (getUserId sample_device no_items)) =
    HistoryGet "user_1700000000000_k3j9x1abc" :: rest.
Proof.
  split; [reflexivity|].
  destruct (history_requested_for_stored_user sample_device (Posted "[]") no_items)
    as [H _].
  apply H; reflexivity.
Defined.

(** ** What an outcome says about the endpoint *)

Lemma verdict_none_nonterminal k r : verdict k r = None -> nonterminal k r = true.
Proof.
  destruct r as [d|]; cbn [verdict nonterminal pending_response].
  - destruct (is_paid d); [discriminate|].
    destruct (is_expired d); [discriminate | reflexivity].
  - destruct (k <? 3)%nat; [reflexivity | discriminate].
Qed.

Lemma quiet_nonterminal env n :
  quiet env n -> forall k, k < n -> nonterminal k (env k) = true.
Proof. intros Hq k Hk; apply verdict_none_nonterminal, Hq, Hk. Qed.

(** X22: an outcome is never reported without cause.  When a poll has run
    its course, [Paid] means that the last query was answered by a response
    whose [payment_status] is "paid"; [Expired] that it was answered by a
    response whose [status] is "expired" and that is not paid; [Failed] that
    it met a transport failure and was at least the fourth query;
    [TimedOut] that ten queries were issued.  In every case each earlier
    query got a result after which the poll goes on. *)
Theorem outcome_reflects_last_query (p : Poller) (env : nat -> QueryResult) :
  (forall k, k < Nat.pred (queries (poll (routine p) env)) ->
     nonterminal k (env k) = true) /\
  exists o,
    resolved (poll (routine p) env) = [o] /\
    match o with
    | Paid =>
        exists d, env (Nat.pred (queries (poll (routine p) env))) = Response d /\
                  payment_status d = Some "paid"%string
    | Expired =>
        exists d, env (Nat.pred (queries (poll (routine p) env))) = Response d /\
                  status d = Some "expired"%string /\
                  payment_status d <> Some "paid"%string
    | Failed =>
        env (Nat.pred (queries (poll (routine p) env))) = TransportError /\
        4 <= queries (poll (routine p) env)
    | TimedOut =>
        queries (poll (routine p) env) = 10 /\
        nonterminal 9 (env 9) = true
    end.
Proof.
  pose proof (routine_skeleton p) as Hsk.
  destruct (poll_trajectory (routine p) env Hsk)
    as [[Hq Hs] | (n & o & Hn & Hq & Hv & Hs)].
  - destruct (control_fields _ _ _ _ _ (settled_poll _ _ _ _ _ Hs))
      as (_ & Hqs & _ & Hr).
    rewrite Hqs, Hr; split.
    + intros k Hk; apply (quiet_nonterminal env maxAttempts Hq); cbn in Hk; budget.
    + exists TimedOut; repeat split.
      apply (quiet_nonterminal env maxAttempts Hq); budget.
  - destruct (control_fields _ _ _ _ _ (settled_poll _ _ _ _ _ Hs))
      as (_ & Hqs & _ & Hr).
    rewrite Hqs, Hr; cbn [Nat.pred]; split.
    + intros k Hk; apply (quiet_nonterminal env n Hq); exact Hk.
    + exists o; split; [reflexivity|].
      unfold verdict in Hv.
      destruct (env n) as [d|] eqn:Henv.
      * destruct (is_paid d) eqn:Ep.
        -- injection Hv as <-; exists d; split; [reflexivity|].
           apply strict_eq_true, Ep.
        -- destruct (is_expired d) eqn:Ee; [|discriminate].
           injection Hv as <-; exists d; split; [reflexivity|]; split.
           ++ apply strict_eq_true, Ee.
           ++ apply strict_eq_false, Ep.
      * destruct (n <? 3)%nat eqn:E3; [discriminate|].
        injection Hv as <-; split; [reflexivity|].
        apply Nat.ltb_ge in E3; lia.
Qed.

(** X23: a poll never keeps the user waiting for more than 20 seconds of
    timer delay: at every point the time spent in delays is at most
    20000 ms; a finished poll has waited [pollInterval] between any two
    queries, and once more before it times out. *)
Theorem poll_waits_at_most_twenty_seconds (p : Poller) (env : nat -> QueryResult)
    (n : nat) :
  (0 <= clock (run (routine p) env n) <= 20000)%Z /\
  clock (poll (routine p) env) =
    (if match resolved (poll (routine p) env) with [TimedOut] => true | _ => false end
     then Z.of_nat (queries (poll (routine p) env)) * pollInterval
     else (Z.of_nat (queries (poll (routine p) env)) - 1) * pollInterval)%Z.
Proof.
  pose proof (routine_skeleton p) as Hsk.
  assert (Hw : forall k, k <= S maxAttempts -> (0 <= waited k <= 20000)%Z).
  { intros k Hk; unfold waited, pollInterval.
    assert (Nat.pred k <= 10) by budget. lia. }
  assert (Hpolling : forall k, k <= maxAttempts -> quiet env k ->
            (0 <= clock (run (routine p) env k) <= 20000)%Z).
  { intros k Hk Hq.
    destruct (control_fields _ _ _ _ _ (run_polling (routine p) env Hsk k Hk Hq))
      as (_ & _ & -> & _).
    apply Hw; lia. }
  assert (Hsettled : forall k q o, settled_at (routine p) env k q o -> k <= n ->
            (0 <= clock (run (routine p) env n) <= 20000)%Z).
  { intros k q o Hs Hk; rewrite (settled_later _ _ k q o n Hs Hk).
    pose proof Hs as (Hk' & _ & Hc).
    destruct (control_fields _ _ _ _ _ Hc) as (_ & _ & -> & _).
    apply Hw; exact Hk'. }
  destruct (poll_trajectory (routine p) env Hsk)
    as [[Hq Hs] | (k & o & Hk & Hq & Hv & Hs)].
  - split.
    + destruct (le_lt_dec n maxAttempts) as [Hn|Hn].
      * apply Hpolling; [exact Hn | intros j Hj; apply Hq; lia].
      * eapply Hsettled; [exact Hs | lia].
    + destruct (control_fields _ _ _ _ _ (settled_poll _ _ _ _ _ Hs))
        as (_ & -> & -> & ->).
      reflexivity.
  - split.
    + destruct (le_lt_dec n k) as [Hn|Hn].
      * apply Hpolling; [lia | intros j Hj; apply Hq; lia].
      * eapply Hsettled; [exact Hs | lia].
    + destruct (control_fields _ _ _ _ _ (settled_poll _ _ _ _ _ Hs))
        as (_ & -> & -> & ->).
      assert (Ho : o <> TimedOut).
      { intros ->; unfold verdict in Hv.
        destruct (env k) as [d|]; [destruct (is_paid d); [discriminate|];
                                   destruct (is_expired d); discriminate
                                  | destruct (k <? 3)%nat; discriminate]. }
      unfold waited; cbn [Nat.pred].
      destruct o; try contradiction; lia.
Qed.

(** ** The session of the chat screen *)


